(** * react-base16-styling: the styling-merge engine of [src/index.js]

    A shallow embedding of the module's functions over a small model of
    the JavaScript values they handle, followed by the properties of the
    merge algebra, the theme resolver and the key resolver.

    Scope of the value model.  Objects are plain objects: an ordered list
    of own enumerable properties, enumerated the way the language does
    (array-index keys in ascending numeric order first, then the other
    keys by insertion).  A key that is no own property reads the member
    inherited from [Object.prototype] ([toString], [constructor], ...)
    when it names one, and [undefined] otherwise; the members of the more
    specific prototypes ([String.prototype], [Array.prototype], ...) are
    not modelled.  A number held as a value is an exact rational; the
    arithmetic of the colour inversion runs on binary64 floating-point
    numbers, as in the language.  Functions supplied by the caller are
    pure and are named by an identifier interpreted by the
    environment. *)

From Stdlib Require Import List String Ascii Bool Arith ZArith NArith QArith Lia.
From Stdlib Require Import PrimFloat Uint63.

Set Warnings "-inexact-float".
From Stdlib Require Import Sorted DecimalString DecimalNat.
Import ListNotations.

Local Close Scope Q_scope.
Local Open Scope string_scope.
Local Open Scope list_scope.

(** ** Completion of a call: a returned value or a thrown exception *)

Inductive result (A : Type) : Type :=
| Ret (a : A)
| Throw.

Arguments Ret {A} a.
Arguments Throw {A}.

Definition bind {A B : Type} (r : result A) (k : A -> result B) : result B :=
  match r with
  | Ret a => k a
  | Throw => Throw
  end.

Notation "x <- r ;; k" := (bind r (fun x => k))
  (at level 61, r at next level, right associativity).

Fixpoint mapM {A B : Type} (f : A -> result B) (l : list A) : result (list B) :=
  match l with
  | [] => Ret []
  | a :: r => b <- f a ;; bs <- mapM f r ;; Ret (b :: bs)
  end.

Fixpoint foldM {A B : Type} (f : B -> A -> result B) (l : list A) (b : B)
  : result B :=
  match l with
  | [] => Ret b
  | a :: r => b' <- f b a ;; foldM f r b'
  end.

(** ** Values *)

Section Model.

Variable U : Type.

(** [func] lists the functions a styling value can be: one supplied by the
    caller, one of the closures [merger] and [mergeStyling] build (the
    constructor records the variables the closure captures), or a function
    every object inherits from [Object.prototype], named by its key. *)
#[local] Unset Elimination Schemes.

Inductive value : Type :=
| VUndef
| VNull
| VBool (b : bool)
| VNum (x : Q)
| VStr (s : string)
| VObj (props : list (string * value))
| VArr (elems : list value)
| VFun (f : func)
with func : Type :=
| FUser (u : U)
| FMerger (styling : value)
| FStrFn (customStyling defaultStyling : value)
| FObjFn (customStyling defaultStyling : value)
| FFnStr (customStyling defaultStyling : value)
| FFnObj (customStyling defaultStyling : value)
| FFnFn (customStyling defaultStyling : value)
| FProto (k : string).

#[local] Set Elimination Schemes.

Definition props : Type := list (string * value).

Inductive jstype : Type :=
| TUndefined | TObject | TBoolean | TNumber | TString | TFunction.

Definition typeof (v : value) : jstype :=
  match v with
  | VUndef => TUndefined
  | VNull => TObject
  | VBool _ => TBoolean
  | VNum _ => TNumber
  | VStr _ => TString
  | VObj _ => TObject
  | VArr _ => TObject
  | VFun _ => TFunction
  end.

(** [Boolean(v)], also the test of [||], [&&], [!] and [if]. *)
Definition truthy (v : value) : bool :=
  match v with
  | VUndef | VNull => false
  | VBool b => b
  | VNum x => negb (Qnum x =? 0)%Z
  | VStr s => negb (String.eqb s "")
  | VObj _ | VArr _ | VFun _ => true
  end.

Definition is_undefined (v : value) : bool :=
  match v with VUndef => true | _ => false end.

Definition is_null (v : value) : bool :=
  match v with VNull => true | _ => false end.

(** [Array.isArray(v)] *)
Definition is_array (v : value) : bool :=
  match v with VArr _ => true | _ => false end.

Definition elements (v : value) : list value :=
  match v with VArr es => es | _ => [] end.

(** *** Property keys *)

(** The decimal rendering of an index, and the test for a canonical array
    index (the keys an object enumerates first): a decimal numeral without
    leading zero below 2^32 - 1. *)
Definition index_key (n : nat) : string :=
  NilEmpty.string_of_uint (Nat.to_uint n).

Definition array_index (k : string) : option N :=
  match NilEmpty.uint_of_string k with
  | Some d =>
      let n := N.of_uint d in
      if String.eqb (NilEmpty.string_of_uint (N.to_uint n)) k
         && (n <? 4294967295)%N
      then Some n else None
  | None => None
  end.

Fixpoint lookup (k : string) (ps : props) : option value :=
  match ps with
  | [] => None
  | (k', v) :: r => if String.eqb k k' then Some v else lookup k r
  end.

Definition has_key (k : string) (ps : props) : bool :=
  match lookup k ps with Some _ => true | None => false end.

Fixpoint replace_prop (k : string) (v : value) (ps : props) : props :=
  match ps with
  | [] => []
  | (k', v') :: r =>
      if String.eqb k k' then (k', v) :: r else (k', v') :: replace_prop k v r
  end.

Fixpoint insert_index (n : N) (k : string) (v : value) (ps : props) : props :=
  match ps with
  | [] => [(k, v)]
  | (k', v') :: r =>
      match array_index k' with
      | Some m => if (m <? n)%N then (k', v') :: insert_index n k v r
                  else (k, v) :: ps
      | None => (k, v) :: ps
      end
  end.

(** [o[k] = v] on a plain object: an existing property keeps its place, a
    new array-index key goes among the index keys, any other new key goes
    last. *)
Definition obj_set (ps : props) (k : string) (v : value) : props :=
  if has_key k ps then replace_prop k v ps
  else match array_index k with
       | Some n => insert_index n k v ps
       | None => ps ++ [(k, v)]
       end.



(** [delete o[k]] *)
Definition obj_delete (ps : props) (k : string) : props :=
  filter (fun p => negb (String.eqb k (fst p))) ps.

(** An object literal [{k1: v1, ..., kn: vn}]. *)
Definition obj_literal (l : props) : props :=
  fold_left (fun o p => obj_set o (fst p) (snd p)) l [].

(** *** Own enumerable properties of a value *)

Fixpoint string_entries_from (i : nat) (s : string) : props :=
  match s with
  | EmptyString => []
  | String c r => (index_key i, VStr (String c EmptyString))
                    :: string_entries_from (S i) r
  end.

Fixpoint array_entries_from (i : nat) (l : list value) : props :=
  match l with
  | [] => []
  | v :: r => (index_key i, v) :: array_entries_from (S i) r
  end.

(** What a spread [{...v}] copies and what [Object.keys(v)] and [for-in]
    enumerate: the properties of an object, the elements of an array, the
    characters of a string; nothing for the other values. *)
Definition own_entries (v : value) : props :=
  match v with
  | VObj ps => ps
  | VArr es => array_entries_from 0 es
  | VStr s => string_entries_from 0 s
  | _ => []
  end.

Definition own_keys (v : value) : list string := map fst (own_entries v).

(** The keys of an object are pairwise distinct; the list that stands for
    one is to have that property. *)
Definition distinct_keys (v : value) : Prop := NoDup (own_keys v).

(** [Object.keys(v)]: a TypeError on [undefined] and [null]. *)
Definition object_keys (v : value) : result (list string) :=
  match v with
  | VUndef | VNull => Throw
  | _ => Ret (own_keys v)
  end.

Definition spread_into (target : props) (src : value) : props :=
  fold_left (fun o p => obj_set o (fst p) (snd p)) (own_entries src) target.

(** [{...a, ...b}] *)
Definition spread2 (a b : value) : props :=
  spread_into (spread_into [] a) b.

(** The keys of the functions of [Object.prototype]. *)
Definition prototype_functions : list string :=
  ["constructor"; "hasOwnProperty"; "isPrototypeOf"; "propertyIsEnumerable";
   "toLocaleString"; "toString"; "valueOf";
   "__defineGetter__"; "__defineSetter__";
   "__lookupGetter__"; "__lookupSetter__"].

(** The keys every object inherits a member for: the functions of
    [Object.prototype] and the accessor [__proto__]. *)
Definition inherited_key (k : string) : bool :=
  existsb (String.eqb k) prototype_functions || String.eqb k "__proto__".

(** What a read of [k] finds on the prototype chain when [k] is no own
    property: the function [Object.prototype[k]]; at [__proto__] the
    prototype itself, an object without enumerable own properties; and
    [undefined] at every other key. *)
Definition inherited (k : string) : value :=
  if existsb (String.eqb k) prototype_functions then VFun (FProto k)
  else if String.eqb k "__proto__" then VObj []
  else VUndef.

(** The value at [k] of an object of own properties [ps]: the own
    property where there is one, the inherited member otherwise. *)
Definition member (ps : props) (k : string) : value :=
  match lookup k ps with
  | Some x => x
  | None => inherited k
  end.

(** [v[k]]: a TypeError on [undefined] and [null]. *)
Definition get (v : value) (k : string) : result value :=
  match v with
  | VUndef | VNull => Throw
  | VObj _ | VArr _ | VStr _ =>
      if (match v with VObj _ => false | _ => String.eqb k "length" end)
      then Ret (VNum (inject_Z (Z.of_nat (List.length (own_entries v)))))
      else Ret (member (own_entries v) k)
  | _ => Ret (inherited k)
  end.

(** The function [Object.prototype.hasOwnProperty] on a receiver that is
    not [undefined] or [null]: the test for an own property. *)
Definition hasOwnProperty (v : value) (k : string) : bool :=
  match v with
  | VObj ps => has_key k ps
  | VArr _ | VStr _ => has_key k (own_entries v) || String.eqb k "length"
  | _ => false
  end.


(** ** The environment of the module

    What [src/index.js] imports or receives and does not define: the
    functions of the caller, the language's [ToString] on values that are
    not strings, the exports of the [base16] package, and the colour
    conversions of [pure-color] and [./colorConverters]. *)

Definition triple : Type := (float * float * float)%type.

Record Env : Type := {
  (** a function of the caller applied to its arguments *)
  user_call : U -> list value -> result value;
  (** a function of the caller called as a method: the receiver first *)
  user_method : U -> value -> list value -> result value;
  (** [String(v)] for a number, an object, an array or a function *)
  render : value -> string;
  (** [import * as base16 from 'base16']: the named themes *)
  base16 : props;
  (** [parse]: a colour to its RGB components; may reject its argument *)
  parse : value -> result triple;
  rgb2yuv : triple -> triple;
  yuv2rgb : triple -> triple;
  rgb2hex : triple -> string
}.

Variable E : Env.

Definition or_undefined (o : option value) : value :=
  match o with Some v => v | None => VUndef end.

(** [const DEFAULT_BASE16 = base16.default] *)
Definition DEFAULT_BASE16 : value := or_undefined (lookup "default" (base16 E)).

(** [const BASE16_KEYS = Object.keys(DEFAULT_BASE16)] *)
Definition BASE16_KEYS : list string := own_keys DEFAULT_BASE16.

(** [String(v)]; also the conversion of a value used as a property key and
    of an operand of [+] next to a string. *)
Definition to_string (v : value) : string :=
  match v with
  | VStr s => s
  | VUndef => "undefined"
  | VNull => "null"
  | VBool true => "true"
  | VBool false => "false"
  | _ => render E v
  end.

(** [l.filter(Boolean).join(' ')] *)
Definition join_truthy (l : list value) : string :=
  String.concat " " (map to_string (filter truthy l)).

(** [keys.indexOf(key) === -1] is [negb (mem_key key keys)]. *)
Definition mem_key (k : string) (ks : list string) : bool :=
  existsb (String.eqb k) ks.

(** [/^base/.test(key)] *)
Definition starts_with_base (k : string) : bool := String.prefix "base" k.

(** ** Colour inversion *)

(** [const flip = x => x < 0.25 ? 1 : (x < 0.5 ? (0.9 - x) : 1.1 - x)],
    on binary64 numbers: the constants [0.9] and [1.1] are the nearest
    binary64 values and each subtraction rounds. *)
Definition flip (x : float) : float :=
  if (x <? 0.25)%float then 1%float
  else if (x <? 0.5)%float then (0.9 - x)%float
  else (1.1 - x)%float.

(** [flow(parse, rgb2yuv, ([y, u, v]) => [flip(y), u, v], yuv2rgb, rgb2hex)] *)
Definition invertColor (c : value) : result value :=
  rgb <- parse E c ;;
  let '(y, u, v) := rgb2yuv E rgb in
  Ret (VStr (rgb2hex E (yuv2rgb E (flip y, u, v)))).

(** ** The styling merger *)

Definition or_empty (v : value) : value :=
  if truthy v then v else VObj [].

(** [merger(styling)(prevStyling)] *)
Definition merger (styling prevStyling : value) : result value :=
  pc <- get prevStyling "className" ;;
  sc <- get styling "className" ;;
  ps <- get prevStyling "style" ;;
  ss <- get styling "style" ;;
  Ret (VObj (obj_literal
         [("className", VStr (join_truthy [pc; sc]));
          ("style", VObj (spread2 (or_empty ps) (or_empty ss)))])).

(** [Object(v)]: a new object for [undefined] and [null], an object
    itself, and for a primitive the object that wraps it, which has the
    enumerable own properties of the primitive. *)
Definition to_object (v : value) : value :=
  match v with
  | VUndef | VNull => VObj []
  | VObj _ | VArr _ | VFun _ => v
  | _ => VObj (own_entries v)
  end.

(** A call [f(...args)] of [f = Object.prototype[k]], whose receiver is
    [undefined]: [toString] names the class of the receiver,
    [constructor] is [Object], [isPrototypeOf] answers [false] for an
    argument that is no object before it looks at the receiver, and the
    other functions throw a TypeError when they convert the receiver to
    an object. *)
Definition prototype_call (k : string) (args : list value) : result value :=
  let v := hd VUndef args in
  if String.eqb k "toString" then Ret (VStr "[object Undefined]")
  else if String.eqb k "constructor" then Ret (to_object v)
  else if String.eqb k "isPrototypeOf" then
    match v with
    | VObj _ | VArr _ | VFun _ => Throw
    | _ => Ret (VBool false)
    end
  else Throw.

(** A call [f(...args)] of one of the functions of [func].  The closures
    have the parameter list [(styling, ...args)]. *)
Fixpoint call (f : func) (args : list value) {struct f} : result value :=
  let styling := hd VUndef args in
  let rest := tl args in
  match f with
  | FUser u => user_call E u args
  | FMerger s => merger s styling
  | FStrFn c d =>
      r <- match d with VFun g => call g (styling :: rest) | _ => Throw end ;;
      merger (VObj (obj_literal [("className", c)])) r
  | FObjFn c d =>
      r <- match d with VFun g => call g (styling :: rest) | _ => Throw end ;;
      merger (VObj (obj_literal [("style", c)])) r
  | FFnStr c d =>
      m <- merger styling (VObj (obj_literal [("className", d)])) ;;
      match c with VFun g => call g (m :: rest) | _ => Throw end
  | FFnObj c d =>
      m <- merger styling (VObj (obj_literal [("style", d)])) ;;
      match c with VFun g => call g (m :: rest) | _ => Throw end
  | FFnFn c d =>
      r <- match d with VFun g => call g (styling :: rest) | _ => Throw end ;;
      match c with VFun g => call g (r :: rest) | _ => Throw end
  | FProto k => prototype_call k args
  end.

(** A call of a value: a TypeError when it is not a function. *)
Definition call_value (f : value) (args : list value) : result value :=
  match f with
  | VFun g => call g args
  | _ => Throw
  end.

(** A call [o[k](...args)] of the function [Object.prototype[k]], other
    than [toLocaleString], as a method of the plain object [o] of own
    properties [ps], with the argument ['base00'] or without argument:
    [arg] is the string or [undefined].  The two definers throw a
    TypeError for the accessor function they are not given, and the
    two lookups find no accessor at the key. *)
Definition prototype_method (k : string) (ps : props) (arg : value)
  : result value :=
  if String.eqb k "toString" then Ret (VStr "[object Object]")
  else if String.eqb k "valueOf" then Ret (VObj ps)
  else if String.eqb k "constructor" then Ret (to_object arg)
  else if String.eqb k "isPrototypeOf" then Ret (VBool false)
  else if String.eqb k "hasOwnProperty"
          || String.eqb k "propertyIsEnumerable"
  then Ret (VBool (has_key (to_string arg) ps))
  else if String.eqb k "__lookupGetter__" || String.eqb k "__lookupSetter__"
  then Ret VUndef
  else Throw.

(** A call [o.m(...args)] of the own property [f] of the plain object
    [o] of own properties [ps], with the argument ['base00'] or without
    argument: a TypeError when [f] is no function; the closures of
    [func] are arrow functions and take no receiver;
    [Object.prototype.toLocaleString] calls [o.toString()], without end
    when that is [toLocaleString] again, which the engine ends by an
    exception. *)
Definition method_call (ps : props) (f : value) (arg : value)
  : result value :=
  let args := if is_undefined arg then [] else [arg] in
  match f with
  | VFun (FUser u) => user_method E u (VObj ps) args
  | VFun (FProto k) =>
      if String.eqb k "toLocaleString" then
        match lookup "toString" ps with
        | None => Ret (VStr "[object Object]")
        | Some (VFun (FUser u)) => user_method E u (VObj ps) []
        | Some (VFun (FProto k')) =>
            if String.eqb k' "toLocaleString" then Throw
            else prototype_method k' ps VUndef
        | Some (VFun g) => call g []
        | Some _ => Throw
        end
      else prototype_method k ps arg
  | VFun g => call g args
  | _ => Throw
  end.

(** [theme.hasOwnProperty('base00')] on a truthy [theme]: an own
    property [hasOwnProperty] of the theme shadows the function every
    object inherits, which tests for an own property. *)
Definition has_base00 (theme : value) : result value :=
  match theme with
  | VObj ps =>
      match lookup "hasOwnProperty" ps with
      | Some f => method_call ps f (VStr "base00")
      | None => Ret (VBool (has_key "base00" ps))
      end
  | _ => Ret (VBool (hasOwnProperty theme "base00"))
  end.

(** The inner [switch (defaultType)] of each outer case of [mergeStyling]:
    [Some r] when a case returns [r], [None] when no case matches and
    control leaves the inner switch. *)
Definition inner_string (customStyling defaultStyling : value) : option value :=
  match typeof defaultStyling with
  | TString =>
      Some (VStr (join_truthy [defaultStyling; customStyling]))
  | TObject =>
      Some (VFun (FMerger (VObj (obj_literal
              [("className", customStyling); ("style", defaultStyling)]))))
  | TFunction => Some (VFun (FStrFn customStyling defaultStyling))
  | _ => None
  end.

Definition inner_object (customStyling defaultStyling : value) : option value :=
  match typeof defaultStyling with
  | TString =>
      Some (VFun (FMerger (VObj (obj_literal
              [("className", defaultStyling); ("style", customStyling)]))))
  | TObject => Some (VObj (spread2 defaultStyling customStyling))
  | TFunction => Some (VFun (FObjFn customStyling defaultStyling))
  | _ => None
  end.

Definition inner_function (customStyling defaultStyling : value) : option value :=
  match typeof defaultStyling with
  | TString => Some (VFun (FFnStr customStyling defaultStyling))
  | TObject => Some (VFun (FFnObj customStyling defaultStyling))
  | TFunction => Some (VFun (FFnFn customStyling defaultStyling))
  | _ => None
  end.

(** Running the cases of the outer switch from the matching one on: no
    outer case ends in [break], so control that leaves an inner switch
    falls into the next case; past the last case the function ends
    without a [return], which yields [undefined]. *)
Fixpoint fall_through (cases : list (value -> value -> option value))
  (customStyling defaultStyling : value) : value :=
  match cases with
  | [] => VUndef
  | c :: r =>
      match c customStyling defaultStyling with
      | Some v => v
      | None => fall_through r customStyling defaultStyling
      end
  end.

Definition mergeStyling (customStyling defaultStyling : value) : value :=
  if is_undefined customStyling then defaultStyling
  else if is_undefined defaultStyling then customStyling
  else match typeof customStyling with
       | TString =>
           fall_through [inner_string; inner_object; inner_function]
             customStyling defaultStyling
       | TObject =>
           fall_through [inner_object; inner_function]
             customStyling defaultStyling
       | TFunction =>
           fall_through [inner_function] customStyling defaultStyling
       | _ => VUndef
       end.

(** ** The styling map merger *)

(** The [for-in] loop of [mergeStylings]: [if (keys.indexOf(key) === -1)
    keys.push(key)] for each enumerated key. *)
Definition push_missing (keys : list string) (key : string) : list string :=
  if mem_key key keys then keys else keys ++ [key].

Definition merge_keys (customStylings defaultStylings : value) : list string :=
  fold_left push_missing (own_keys customStylings) (own_keys defaultStylings).

Definition mergeStylings (customStylings defaultStylings : value) : result value :=
  _ <- object_keys defaultStylings ;;
  merged <- foldM (fun mergedStyling key =>
              c <- get customStylings key ;;
              d <- get defaultStylings key ;;
              Ret (obj_set mergedStyling key (mergeStyling c d)))
            (merge_keys customStylings defaultStylings) [] ;;
  Ret (VObj merged).

(** ** The key resolver *)

(** One step of the [reduce] over the looked-up stylings; [obj] is the
    accumulator, an object throughout. *)
Definition styling_step (args : list value) (obj : props) (s : value)
  : result props :=
  match typeof s with
  | TString =>
      Ret (obj_set obj "className"
             (VStr (join_truthy [or_undefined (lookup "className" obj); s])))
  | TObject =>
      Ret (obj_set obj "style"
             (VObj (spread2 (or_undefined (lookup "style" obj)) s)))
  | TFunction =>
      r <- call_value s (VObj obj :: args) ;;
      Ret (spread2 (VObj obj) r)
  | _ => Ret obj
  end.

Definition getStylingByKeys (mergedStyling keys : value) (args : list value)
  : result value :=
  if is_null keys then Ret mergedStyling
  else
    let keys := if is_array keys then elements keys else [keys] in
    looked <- mapM (fun key => get mergedStyling (to_string key)) keys ;;
    let styles := filter truthy looked in
    props <- foldM (styling_step args) styles
               (obj_literal [("className", VStr ""); ("style", VObj [])]) ;;
    let props :=
      if truthy (or_undefined (lookup "className" props)) then props
      else obj_delete props "className" in
    ks <- object_keys (or_undefined (lookup "style" props)) ;;
    Ret (VObj (if Nat.eqb (List.length ks) 0 then obj_delete props "style"
               else props)).

(** ** Themes *)

(** [theme.split(':')] *)
Fixpoint split_on (sep : ascii) (s : string) : list string :=
  match s with
  | EmptyString => [EmptyString]
  | String c r =>
      if Ascii.eqb c sep then EmptyString :: split_on sep r
      else match split_on sep r with
           | [] => [String c EmptyString]
           | h :: t => String c h :: t
           end
  end.

(** The value [invertTheme] stores at [key], [x] being [theme[key]]. *)
Definition invert_value (key : string) (x : value) : result value :=
  if starts_with_base key then invertColor x
  else if String.eqb key "scheme" then Ret (VStr (to_string x ++ ":inverted"))
  else Ret x.

Definition invertTheme (theme : value) : result value :=
  ks <- object_keys theme ;;
  t <- foldM (fun t key =>
         x <- get theme key ;;
         v <- invert_value key x ;;
         Ret (obj_set t key v))
       ks [] ;;
  Ret (VObj t).

Definition getBase16Theme (theme base16Themes : value) : result value :=
  theme <- (if truthy theme
            then e <- get theme "extend" ;;
                 Ret (if truthy e then e else theme)
            else Ret theme) ;;
  theme <- match theme with
           | VStr s =>
               let parts := split_on ":" s in
               let themeName := hd "" parts in
               let modifier := nth_error parts 1 in
               a <- get (if truthy base16Themes then base16Themes
                         else VObj []) themeName ;;
               let t := if truthy a then a
                        else or_undefined (lookup themeName (base16 E)) in
               if match modifier with
                  | Some m => String.eqb m "inverted"
                  | None => false
                  end
               then invertTheme t
               else Ret t
           | _ => Ret theme
           end ;;
  if truthy theme
  then own <- has_base00 theme ;;
       Ret (if truthy own then theme else VUndef)
  else Ret VUndef.

(** ** The entry point *)

(** A parameter default [p = d] and a destructuring default [{p = d}]. *)
Definition default_to (d v : value) : value :=
  if is_undefined v then d else v.

(** [if (base16Theme) themeOrStyling = {...base16Theme, ...themeOrStyling}] *)
Definition effective_input (themeOrStyling base16Theme : value) : value :=
  if truthy base16Theme then VObj (spread2 base16Theme themeOrStyling)
  else themeOrStyling.

(** [const theme = BASE16_KEYS.reduce(...)] *)
Definition effective_theme (themeOrStyling defaultBase16 : value)
  : result value :=
  t <- foldM (fun t key =>
         x <- get themeOrStyling key ;;
         y <- (if truthy x then Ret x else get defaultBase16 key) ;;
         Ret (obj_set t key y))
       BASE16_KEYS [] ;;
  Ret (VObj t).

(** [const customStyling = Object.keys(themeOrStyling).reduce(...)] *)
Definition custom_styling (themeOrStyling : value) : result value :=
  ks <- object_keys themeOrStyling ;;
  s <- foldM (fun s key =>
         if mem_key key BASE16_KEYS then Ret s
         else v <- get themeOrStyling key ;; Ret (obj_set s key v))
       ks [] ;;
  Ret (VObj s).

(** What [curry(getStylingByKeys, 2)(mergedStyling, ...args)] is: with no
    further argument a function that awaits [(keys, ...args)], otherwise
    the call [getStylingByKeys(mergedStyling, ...args)] itself. *)
Inductive styling : Type :=
| Resolver (mergedStyling : value)
| Resolved (props : value).

Definition apply_resolver (mergedStyling : value) (args : list value)
  : result styling :=
  match args with
  | [] => Ret (Resolver mergedStyling)
  | keys :: rest =>
      p <- getStylingByKeys mergedStyling keys rest ;; Ret (Resolved p)
  end.

(** The body of [createStyling], its three parameters supplied: first the
    part down to [theme] and [customStyling], then the part down to
    [mergedStyling]. *)
Definition theme_and_custom (options themeOrStyling : value)
  : result (value * value) :=
  let options := default_to (VObj []) options in
  let themeOrStyling := default_to (VObj []) themeOrStyling in
  d <- get options "defaultBase16" ;;
  let defaultBase16 := default_to DEFAULT_BASE16 d in
  b <- get options "base16Themes" ;;
  let base16Themes := default_to VNull b in
  base16Theme <- getBase16Theme themeOrStyling base16Themes ;;
  let themeOrStyling := effective_input themeOrStyling base16Theme in
  theme <- effective_theme themeOrStyling defaultBase16 ;;
  customStyling <- custom_styling themeOrStyling ;;
  Ret (theme, customStyling).

Definition merged_styling (getStylingFromBase16 options themeOrStyling : value)
  : result value :=
  tc <- theme_and_custom options themeOrStyling ;;
  defaultStyling <- call_value getStylingFromBase16 [fst tc] ;;
  mergeStylings (snd tc) defaultStyling.

Definition createStyling (getStylingFromBase16 options themeOrStyling : value)
  (args : list value) : result styling :=
  mergedStyling <- merged_styling getStylingFromBase16 options themeOrStyling ;;
  apply_resolver mergedStyling args.

End Model.

Arguments VUndef {U}.
Arguments VNull {U}.
Arguments VBool {U} b.
Arguments VNum {U} x.
Arguments VStr {U} s.
Arguments VObj {U} props.
Arguments VArr {U} elems.
Arguments VFun {U} f.
Arguments FUser {U} u.
Arguments FMerger {U} styling.
Arguments FStrFn {U} customStyling defaultStyling.
Arguments FObjFn {U} customStyling defaultStyling.
Arguments FFnStr {U} customStyling defaultStyling.
Arguments FFnObj {U} customStyling defaultStyling.
Arguments FFnFn {U} customStyling defaultStyling.
Arguments FProto {U} k.
Arguments Resolver {U} mergedStyling.
Arguments Resolved {U} props.
Arguments props U : clear implicits.
Arguments typeof {U} v.
Arguments truthy {U} v.
Arguments is_undefined {U} v.
Arguments is_null {U} v.
Arguments is_array {U} v.
Arguments elements {U} v.
Arguments lookup {U} k ps.
Arguments has_key {U} k ps.
Arguments replace_prop {U} k v ps.
Arguments insert_index {U} n k v ps.
Arguments obj_set {U} ps k v.
Arguments obj_delete {U} ps k.
Arguments obj_literal {U} l.
Arguments string_entries_from {U} i s.
Arguments array_entries_from {U} i l.
Arguments own_entries {U} v.
Arguments own_keys {U} v.
Arguments distinct_keys {U} v.
Arguments object_keys {U} v.
Arguments spread_into {U} target src.
Arguments spread2 {U} a b.
Arguments inherited {U} k.
Arguments member {U} ps k.
Arguments get {U} v k.
Arguments hasOwnProperty {U} v k.
Arguments Build_Env {U}.
Arguments user_call {U} e.
Arguments user_method {U} e.
Arguments render {U} e.
Arguments base16 {U} e.
Arguments parse {U} e.
Arguments rgb2yuv {U} e.
Arguments yuv2rgb {U} e.
Arguments rgb2hex {U} e.
Arguments or_undefined {U} o.
Arguments DEFAULT_BASE16 {U} E.
Arguments BASE16_KEYS {U} E.
Arguments to_string {U} E v.
Arguments join_truthy {U} E l.
Arguments invertColor {U} E c.
Arguments or_empty {U} v.
Arguments merger {U} E styling prevStyling.
Arguments to_object {U} v.
Arguments prototype_call {U} k args.
Arguments call {U} E f args.
Arguments call_value {U} E f args.
Arguments prototype_method {U} E k ps arg.
Arguments method_call {U} E ps f arg.
Arguments has_base00 {U} E theme.
Arguments inner_string {U} E customStyling defaultStyling.
Arguments inner_object {U} customStyling defaultStyling.
Arguments inner_function {U} customStyling defaultStyling.
Arguments fall_through {U} cases customStyling defaultStyling.
Arguments mergeStyling {U} E customStyling defaultStyling.
Arguments merge_keys {U} customStylings defaultStylings.
Arguments mergeStylings {U} E customStylings defaultStylings.
Arguments styling_step {U} E args obj s.
Arguments getStylingByKeys {U} E mergedStyling keys args.
Arguments invert_value {U} E key x.
Arguments invertTheme {U} E theme.
Arguments getBase16Theme {U} E theme base16Themes.
Arguments default_to {U} d v.
Arguments effective_input {U} themeOrStyling base16Theme.
Arguments effective_theme {U} E themeOrStyling defaultBase16.
Arguments custom_styling {U} E themeOrStyling.
Arguments apply_resolver {U} E mergedStyling args.
Arguments theme_and_custom {U} E options themeOrStyling.
Arguments merged_styling {U} E getStylingFromBase16 options themeOrStyling.
Arguments createStyling {U} E getStylingFromBase16 options themeOrStyling args.

(** ** A concrete environment for the examples *)

(** The functions a caller supplies in the examples:
    - [ColorStyles] is
      [theme => Object.keys(theme).reduce((s, k) =>
                  (s[k] = {style: {color: theme[k]}}, s), {})];
    - [IndexStyles] is [theme => ({0: 'x'})];
    - [NoStyles] is [theme => ({})];
    - [ThemeItself] is [theme => theme]. *)
Inductive sample_fn : Type :=
| ColorStyles
| IndexStyles
| NoStyles
| ThemeItself.

Definition color_style {U : Type} (theme : value U) (k : string) : value U :=
  VObj (obj_literal
    [("style",
      VObj (obj_literal
         [("color", or_undefined (lookup k (own_entries theme)))]))]).

Definition color_styles {U : Type} (theme : value U) : props U :=
  obj_literal (map (fun k => (k, color_style theme k)) (own_keys theme)).

Definition sample_call (u : sample_fn) (args : list (value sample_fn))
  : result (value sample_fn) :=
  let theme := hd VUndef args in
  match u with
  | ColorStyles => _ <- object_keys theme ;; Ret (VObj (color_styles theme))
  | IndexStyles => Ret (VObj (obj_literal [("0", VStr "x")]))
  | NoStyles => Ret (VObj [])
  | ThemeItself => Ret theme
  end.

(** [String(v)] on plain objects; the examples convert no number, array or
    function to a string. *)
Definition sample_render (v : value sample_fn) : string :=
  match v with
  | VObj _ => "[object Object]"
  | _ => ""
  end.

(** Modelled from the spec: the built-in registry of the [base16] package,
    which is not among the sources, reduced to its default theme: the
    sixteen colour keys [base00] ... [base0F] bound to colour strings. *)
Definition sample_default : props sample_fn :=
  [("base00", VStr "#181818"); ("base01", VStr "#282828");
   ("base02", VStr "#383838"); ("base03", VStr "#585858");
   ("base04", VStr "#b8b8b8"); ("base05", VStr "#d8d8d8");
   ("base06", VStr "#e8e8e8"); ("base07", VStr "#f8f8f8");
   ("base08", VStr "#ab4642"); ("base09", VStr "#dc9656");
   ("base0A", VStr "#f7ca88"); ("base0B", VStr "#a1b56c");
   ("base0C", VStr "#86c1b9"); ("base0D", VStr "#7cafc2");
   ("base0E", VStr "#ba8baf"); ("base0F", VStr "#a16946")].

Definition sample_base16 : props sample_fn :=
  [("default", VObj sample_default)].

Definition hex_digit (c : ascii) : option Z :=
  let n := Z.of_N (N_of_ascii c) in
  if (48 <=? n)%Z && (n <=? 57)%Z then Some (n - 48)%Z
  else if (97 <=? n)%Z && (n <=? 102)%Z then Some (n - 87)%Z
  else if (65 <=? n)%Z && (n <=? 70)%Z then Some (n - 55)%Z
  else None.

Definition float_of_Z (n : Z) : float := PrimFloat.of_uint63 (Uint63.of_Z n).

Definition hex_pair (a b : ascii) : option float :=
  match hex_digit a, hex_digit b with
  | Some x, Some y => Some (float_of_Z (16 * x + y))
  | _, _ => None
  end.

(** Modelled from the spec: [parse] of the [pure-color] package, on the
    colour strings of the form [#rrggbb]; any other argument is rejected. *)
Definition sample_parse (c : value sample_fn) : result triple :=
  match c with
  | VStr (String "#" (String r1 (String r2 (String g1 (String g2
            (String b1 (String b2 EmptyString))))))) =>
      match hex_pair r1 r2, hex_pair g1 g2, hex_pair b1 b2 with
      | Some r, Some g, Some b => Ret (r, g, b)
      | _, _, _ => Throw
      end
  | _ => Throw
  end.

Local Open Scope float_scope.

(** Modelled from the spec: [rgb2yuv] and [yuv2rgb] of [./colorConverters],
    which is not among the sources.  The spec fixes that luma is the first
    component of the YUV-like triple and that the two conversions invert
    each other up to rounding; the BT.601 coefficients used here are one
    such pair, on components scaled from [0, 255] to [0, 1]. *)
Definition sample_rgb2yuv (rgb : triple) : triple :=
  let '(r0, g0, b0) := rgb in
  let r := r0 / 255 in
  let g := g0 / 255 in
  let b := b0 / 255 in
  (r * 0.299 + g * 0.587 + b * 0.114,
   r * -0.14713 + g * -0.28886 + b * 0.436,
   r * 0.615 + g * -0.51499 + b * -0.10001).

Definition clamp01 (x : float) : float :=
  if x <? 0 then 0 else if 1 <? x then 1 else x.

Definition sample_yuv2rgb (yuv : triple) : triple :=
  let '(y, u, v) := yuv in
  let r := y + v * 1.13983 in
  let g := y + u * -0.39465 + v * -0.58060 in
  let b := y + u * 2.03211 in
  (clamp01 r * 255, clamp01 g * 255, clamp01 b * 255).

(** The channel a component rounds to: the nearest integer of [0, 255],
    the number of the integers from 1 to 255 that are at most [x + 0.5]. *)
Definition channel (x : float) : Z :=
  Z.of_nat
    (List.length
       (filter (fun k => float_of_Z (Z.of_nat k) <=? x + 0.5) (seq 1 255))).

Local Close Scope float_scope.

Definition hex_char (d : Z) : ascii :=
  match String.get (Z.to_nat d) "0123456789abcdef" with
  | Some c => c
  | None => "0"%char
  end.

Definition hex_byte (x : float) : string :=
  let n := channel x in
  String (hex_char (n / 16)) (String (hex_char (n mod 16)) EmptyString).

(** Modelled from the spec: [rgb2hex] of the [pure-color] package. *)
Definition sample_rgb2hex (rgb : triple) : string :=
  let '(r, g, b) := rgb in
  "#" ++ hex_byte r ++ hex_byte g ++ hex_byte b.

Definition sample_env : Env sample_fn :=
  Build_Env sample_call (fun u _ => sample_call u) sample_render
    sample_base16
    sample_parse sample_rgb2yuv sample_yuv2rgb sample_rgb2hex.

(** The channels of a colour string, for comparing two colours. *)
Definition channels (c : value sample_fn) : option (Z * Z * Z) :=
  match sample_parse c with
  | Ret (r, g, b) => Some (channel r, channel g, channel b)
  | Throw => None
  end.

(** The value the three-tier reading of the spec gives the theme at [key]:
    the input's value if present, else the value of [options.defaultBase16],
    else the built-in default's. *)
Definition three_tier {U : Type} (input optionsDefault builtin : value U)
  (key : string) : result (value U) :=
  x <- get input key ;;
  if negb (is_undefined x) then Ret x
  else y <- get optionsDefault key ;;
       if negb (is_undefined y) then Ret y else get builtin key.

(** Two class names joined by a space, an empty one left out. *)
Definition join_names (a b : string) : string :=
  if String.eqb a "" then b
  else if String.eqb b "" then a
  else a ++ " " ++ b.

(** The class names among looked-up stylings: the non-empty strings. *)
Definition class_names {U : Type} (l : list (value U)) : list string :=
  flat_map (fun v => match v with
                     | VStr s => if String.eqb s "" then [] else [s]
                     | _ => []
                     end) l.

(** The value the last of the stylings of type [object] that has the key
    [k] gives it, [acc] when none has it. *)
Definition last_defined {U : Type} (k : string) (l : list (value U))
  (acc : option (value U)) : option (value U) :=
  fold_left (fun acc o =>
               match typeof o with
               | TObject => match lookup k (own_entries o) with
                            | Some v => Some v
                            | None => acc
                            end
               | _ => acc
               end) l acc.

(** Two colour strings whose channels differ by at most [tol] (of 255). *)
Definition restored_within (tol : Z) (c c' : value sample_fn) : Prop :=
  match channels c, channels c' with
  | Some (r, g, b), Some (r', g', b') =>
      (Z.abs (r - r') <= tol /\ Z.abs (g - g') <= tol /\
       Z.abs (b - b') <= tol)%Z
  | _, _ => False
  end.

(** A second environment, for the examples on functions that return
    nothing useful: [ReturnsUndefined] is [() => undefined] and
    [ReturnsNullStyle] is [() => ({style: null})].  It has no built-in
    theme and its colour parser rejects every argument. *)
Inductive edge_fn : Type :=
| ReturnsUndefined
| ReturnsNullStyle.

Definition edge_call (u : edge_fn) (args : list (value edge_fn))
  : result (value edge_fn) :=
  match u with
  | ReturnsUndefined => Ret VUndef
  | ReturnsNullStyle => Ret (VObj (obj_literal [("style", VNull)]))
  end.

Definition edge_env : Env edge_fn :=
  Build_Env edge_call (fun u _ => edge_call u)
    (fun _ => "[object Object]") []
    (fun _ => Throw) (fun t => t) (fun t => t) (fun _ => "#000000").




(** A fourth environment, whose built-in default theme has the one key
    [toString]. *)
Definition inherited_key_env : Env edge_fn :=
  Build_Env edge_call (fun u _ => edge_call u)
    (fun _ => "[object Object]")
    [("default", VObj [("toString", VStr "#000000")])]
    (fun _ => Throw) (fun t => t) (fun t => t) (fun _ => "#000000").

(** *** The inputs of the examples *)

(** A theme with [base00: '#000000'] and [base0D: '#ff0000']. *)
Definition scenario_theme : props sample_fn :=
  [("base00", VStr "#000000"); ("base01", VStr "#282828");
   ("base02", VStr "#383838"); ("base03", VStr "#585858");
   ("base04", VStr "#b8b8b8"); ("base05", VStr "#d8d8d8");
   ("base06", VStr "#e8e8e8"); ("base07", VStr "#f8f8f8");
   ("base08", VStr "#ab4642"); ("base09", VStr "#dc9656");
   ("base0A", VStr "#f7ca88"); ("base0B", VStr "#a1b56c");
   ("base0C", VStr "#86c1b9"); ("base0D", VStr "#ff0000");
   ("base0E", VStr "#ba8baf"); ("base0F", VStr "#a16946")].





(** The grey whose three channels are [n], as a colour string. *)
Definition grey (n : nat) : value sample_fn :=
  let b := hex_byte (float_of_Z (Z.of_nat n)) in
  VStr ("#" ++ b ++ b ++ b).


(** * Properties *)

(** ** Objects: reading after writing *)

Section Objects.

Context {U : Type}.

Implicit Types (ps : props U) (k : string) (v : value U).

Lemma lookup_app k ps qs :
  lookup k (ps ++ qs) =
  match lookup k ps with Some v => Some v | None => lookup k qs end.
Proof.
  induction ps as [|[k' v'] r IH]; simpl; [reflexivity|].
  destruct (String.eqb k k'); [reflexivity | exact IH].
Qed.

Lemma lookup_replace_prop k k' v ps :
  has_key k ps = true ->
  lookup k' (replace_prop k v ps) =
  if String.eqb k' k then Some v else lookup k' ps.
Proof.
  unfold has_key.
  induction ps as [|[k0 v0] r IH]; simpl; [discriminate|].
  destruct (String.eqb k k0) eqn:Hk.
  - intros _. apply String.eqb_eq in Hk. subst k0. simpl.
    destruct (String.eqb k' k); reflexivity.
  - intros H. simpl. destruct (String.eqb k' k0) eqn:Hk'.
    + apply String.eqb_eq in Hk'. subst k0.
      rewrite String.eqb_sym, Hk. reflexivity.
    + apply IH, H.
Qed.

Lemma lookup_insert_index n k k' v ps :
  has_key k ps = false ->
  lookup k' (insert_index n k v ps) =
  if String.eqb k' k then Some v else lookup k' ps.
Proof.
  unfold has_key.
  induction ps as [|[k0 v0] r IH]; simpl.
  - destruct (String.eqb k' k); reflexivity.
  - destruct (String.eqb k k0) eqn:Hk; [discriminate|]. intros Hr.
    destruct (array_index k0) as [m|]; [destruct (m <? n)%N|]; simpl;
      try (destruct (String.eqb k' k); reflexivity).
    rewrite (IH Hr). destruct (String.eqb k' k0) eqn:H0; [|reflexivity].
    destruct (String.eqb k' k) eqn:H1; [|reflexivity].
    apply String.eqb_eq in H0, H1. subst.
    rewrite String.eqb_refl in Hk. discriminate.
Qed.

Lemma lookup_obj_set ps k k' v :
  lookup k' (obj_set ps k v) =
  if String.eqb k' k then Some v else lookup k' ps.
Proof.
  unfold obj_set. destruct (has_key k ps) eqn:Hk.
  - apply lookup_replace_prop, Hk.
  - destruct (array_index k) as [n|].
    + apply lookup_insert_index, Hk.
    + rewrite lookup_app. simpl.
      destruct (String.eqb k' k) eqn:H.
      * apply String.eqb_eq in H. subst k'.
        unfold has_key in Hk. destruct (lookup k ps); [discriminate|reflexivity].
      * destruct (lookup k' ps); reflexivity.
Qed.

Lemma inherited_undefined k :
  inherited_key k = false -> inherited (U := U) k = VUndef.
Proof.
  unfold inherited_key, inherited. intros H.
  apply orb_false_iff in H. destruct H as [-> ->]. reflexivity.
Qed.

Lemma member_own ps k :
  inherited_key k = false -> member ps k = or_undefined (lookup k ps).
Proof.
  intros H. unfold member. destruct (lookup k ps); [reflexivity|].
  apply inherited_undefined, H.
Qed.

Lemma member_some ps k v : lookup k ps = Some v -> member ps k = v.
Proof. intros H. unfold member. rewrite H. reflexivity. Qed.

Lemma get_object ps k : get (VObj ps) k = Ret (member ps k).
Proof. reflexivity. Qed.

Lemma lookup_none_iff k ps : lookup k ps = None <-> ~ In k (map fst ps).
Proof.
  induction ps as [|[k0 v0] r IH]; simpl; [tauto|].
  destruct (String.eqb k k0) eqn:H.
  - apply String.eqb_eq in H. subst. split; [discriminate | tauto].
  - apply String.eqb_neq in H. rewrite IH. split; [|tauto].
    intros Hn [He|Hi]; [congruence | tauto].
Qed.


Lemma lookup_some_in k ps v : lookup k ps = Some v -> In k (map fst ps).
Proof.
  intros H. destruct (in_dec string_dec k (map fst ps)) as [Hi|Hn]; [exact Hi|].
  apply lookup_none_iff in Hn. congruence.
Qed.

Lemma in_lookup_some k ps : In k (map fst ps) -> exists v, lookup k ps = Some v.
Proof.
  intros H. destruct (lookup k ps) as [v|] eqn:Hl; [eauto|].
  apply lookup_none_iff in Hl. contradiction.
Qed.

Lemma in_keys_obj_set ps k k' v :
  In k' (map fst (obj_set ps k v)) <-> k' = k \/ In k' (map fst ps).
Proof.
  split.
  - intros H. apply in_lookup_some in H. destruct H as [x H].
    rewrite lookup_obj_set in H. destruct (String.eqb k' k) eqn:He.
    + left. apply String.eqb_eq, He.
    + right. eapply lookup_some_in, H.
  - intros H. destruct (lookup k' (obj_set ps k v)) as [x|] eqn:Hl.
    + eapply lookup_some_in, Hl.
    + rewrite lookup_obj_set in Hl. destruct (String.eqb k' k) eqn:He;
        [discriminate|]. apply String.eqb_neq in He.
      destruct H as [H|H]; [contradiction|].
      apply lookup_none_iff in Hl. contradiction.
Qed.


(** Folding property writes: the last write to a key is the one read. *)
Lemma lookup_fold_set (l : props U) : forall ps k,
  lookup k (fold_left (fun o p => obj_set o (fst p) (snd p)) l ps) =
  match lookup k (rev l) with Some v => Some v | None => lookup k ps end.
Proof.
  induction l as [|[k0 v0] r IH]; intros ps k; simpl; [reflexivity|].
  rewrite IH, lookup_app. destruct (lookup k (rev r)); [reflexivity|].
  simpl. rewrite lookup_obj_set. destruct (String.eqb k k0); reflexivity.
Qed.

Lemma lookup_rev_nodup (l : props U) k :
  NoDup (map fst l) -> lookup k (rev l) = lookup k l.
Proof.
  induction l as [|[k0 v0] r IH]; simpl; [reflexivity|].
  intros Hd. inversion Hd as [|? ? Hn Hr]; subst.
  rewrite lookup_app, (IH Hr). simpl.
  destruct (String.eqb k k0) eqn:He.
  - apply String.eqb_eq in He. subst.
    apply lookup_none_iff in Hn. rewrite Hn. reflexivity.
  - destruct (lookup k r); reflexivity.
Qed.

Lemma mem_key_in k ks : mem_key k ks = true <-> In k ks.
Proof.
  unfold mem_key. rewrite existsb_exists. split.
  - intros [x [Hi He]]. apply String.eqb_eq in He. subst. exact Hi.
  - intros H. exists k. split; [exact H | apply String.eqb_refl].
Qed.

Lemma mem_key_not_in k ks : mem_key k ks = false <-> ~ In k ks.
Proof.
  rewrite <- mem_key_in. destruct (mem_key k ks); split; congruence.
Qed.

End Objects.

(** ** Objects: the order of enumeration *)

Section KeyOrder.

Context {U : Type}.

Implicit Types (ps : props U) (k : string) (v : value U).


Lemma keys_replace_prop k v ps :
  map fst (replace_prop k v ps) = map fst ps.
Proof.
  induction ps as [|[k0 v0] r IH]; simpl; [reflexivity|].
  destruct (String.eqb k k0); simpl; [reflexivity | rewrite IH; reflexivity].
Qed.

Lemma in_keys_insert_index n k v ps x :
  In x (map fst (insert_index n k v ps)) <-> x = k \/ In x (map fst ps).
Proof.
  induction ps as [|[k0 v0] r IH]; simpl; [intuition auto|].
  destruct (array_index k0) as [m|]; [destruct (m <? n)%N|]; simpl;
    try rewrite IH; intuition auto.
Qed.






End KeyOrder.

(** ** Objects built key by key, as the [reduce] calls of the module do *)

Section Folds.

Context {U : Type}.

Implicit Types (ps t : props U) (k : string) (ks : list string).

Lemma foldM_ext {A B : Type} (f g : B -> A -> result B) (l : list A) :
  (forall b a, In a l -> f b a = g b a) ->
  forall b, foldM f l b = foldM g l b.
Proof.
  induction l as [|a r IH]; intros H b; simpl; [reflexivity|].
  rewrite (H b a (or_introl eq_refl)).
  destruct (g b a); simpl; [|reflexivity].
  apply IH. intros b' a' Hi. apply H. right. exact Hi.
Qed.

Variable F : string -> result (value U).

Let step (t : props U) (key : string) : result (props U) :=
  v <- F key ;; Ret (obj_set t key v).

Lemma foldM_set_other ks : forall t0 t k,
  foldM step ks t0 = Ret t -> ~ In k ks -> lookup k t = lookup k t0.
Proof.
  induction ks as [|a r IH]; intros t0 t k; simpl.
  - intros H _. inversion H. reflexivity.
  - unfold step at 1. destruct (F a) as [v|]; simpl; [|discriminate].
    intros H Hn. rewrite (IH _ _ _ H); [|tauto].
    rewrite lookup_obj_set.
    destruct (String.eqb k a) eqn:He; [|reflexivity].
    apply String.eqb_eq in He. subst. tauto.
Qed.

Lemma foldM_set_at ks : forall t0 t k,
  foldM step ks t0 = Ret t -> In k ks ->
  exists v, F k = Ret v /\ lookup k t = Some v.
Proof.
  induction ks as [|a r IH]; intros t0 t k; simpl; [tauto|].
  unfold step at 1. destruct (F a) as [v|] eqn:Ha; simpl; [|discriminate].
  intros H Hi. destruct (in_dec string_dec k r) as [Hr|Hr].
  - eapply IH; eassumption.
  - destruct Hi as [->|Hi]; [|contradiction].
    exists v. split; [exact Ha|].
    rewrite (foldM_set_other _ _ _ _ H Hr), lookup_obj_set, String.eqb_refl.
    reflexivity.
Qed.

Lemma foldM_set_keys ks t0 t k :
  foldM step ks t0 = Ret t ->
  (In k (map fst t) <-> In k (map fst t0) \/ In k ks).
Proof.
  intros H. destruct (in_dec string_dec k ks) as [Hi|Hn].
  - destruct (foldM_set_at _ _ _ _ H Hi) as [v [_ Hv]].
    split; [tauto|]. intros _. eapply lookup_some_in, Hv.
  - pose proof (foldM_set_other _ _ _ _ H Hn) as Ho. split.
    + intros Hk. left. apply in_lookup_some in Hk. destruct Hk as [v Hv].
      rewrite Ho in Hv. eapply lookup_some_in, Hv.
    + intros [Hk|Hk]; [|contradiction].
      apply in_lookup_some in Hk. destruct Hk as [v Hv].
      rewrite <- Ho in Hv. eapply lookup_some_in, Hv.
Qed.

Lemma foldM_set_returns ks :
  (forall k, In k ks -> exists v, F k = Ret v) ->
  forall t0, exists t, foldM step ks t0 = Ret t.
Proof.
  induction ks as [|a r IH]; intros H t0; simpl; [eauto|].
  destruct (H a (or_introl eq_refl)) as [v Hv].
  unfold step at 1. rewrite Hv. simpl. apply IH.
  intros k Hk. apply H. right. exact Hk.
Qed.




End Folds.

(** ** The styling merger *)

Section Merger.

Context {U : Type} (E : Env U).

(** C8.  [undefined] is an identity of the merge on both sides: for every
    value [D], [mergeStyling(undefined, D)] is [D], and for every value
    [C], [mergeStyling(C, undefined)] is [C]. *)
Theorem mergeStyling_undefined_identity :
  (forall D : value U, mergeStyling E VUndef D = D) /\
  (forall C : value U, mergeStyling E C VUndef = C).
Proof.
  split.
  - intros D. reflexivity.
  - intros C. unfold mergeStyling. destruct C; reflexivity.
Qed.

(** C10.  When both stylings are defined and at least one has a [typeof]
    other than ['string'], ['object'] and ['function'], no case of the
    dispatch returns: control falls through the remaining cases and
    [mergeStyling] ends without a [return], so the call yields
    [undefined]. *)
Theorem mergeStyling_unmatched_type (customStyling defaultStyling : value U) :
  customStyling <> VUndef ->
  defaultStyling <> VUndef ->
  (typeof customStyling <> TString /\ typeof customStyling <> TObject /\
   typeof customStyling <> TFunction) \/
  (typeof defaultStyling <> TString /\ typeof defaultStyling <> TObject /\
   typeof defaultStyling <> TFunction) ->
  mergeStyling E customStyling defaultStyling = VUndef.
Proof.
  intros Hc Hd Ht.
  destruct customStyling, defaultStyling; cbn in *;
    try reflexivity; try congruence;
    destruct Ht as [(H1 & H2 & H3) | (H1 & H2 & H3)]; congruence.
Qed.

End Merger.

(** ** The key resolver *)

Section KeyResolver.

Context {U : Type} (E : Env U).

(** C6.  With [keys === null] the resolver returns the merged map itself;
    with a single key, one that is not an array (and not the [null]
    sentinel), it returns what it returns for the one-element array of
    that key, the further arguments being the same. *)
Theorem getStylingByKeys_null_and_single
  (mergedStyling : value U) (args : list (value U)) :
  getStylingByKeys E mergedStyling VNull args = Ret mergedStyling /\
  (forall key : value U,
     is_null key = false -> is_array key = false ->
     getStylingByKeys E mergedStyling key args =
     getStylingByKeys E mergedStyling (VArr [key]) args).
Proof.
  split; [reflexivity|].
  intros key Hn Ha. unfold getStylingByKeys. rewrite Hn, Ha. reflexivity.
Qed.

End KeyResolver.

(** ** The styling map merger *)

Section MapMerger.

Context {U : Type} (E : Env U).

Lemma in_push_missing ks a K :
  In K (push_missing ks a) <-> In K ks \/ K = a.
Proof.
  unfold push_missing. destruct (mem_key a ks) eqn:Hm.
  - apply mem_key_in in Hm. split; [tauto|]. intros [H| ->]; assumption.
  - rewrite in_app_iff. simpl. split; intros [H|H]; auto.
    + destruct H as [H|[]]; auto.
Qed.

Lemma in_fold_push cks : forall dks K,
  In K (fold_left push_missing cks dks) <-> In K dks \/ In K cks.
Proof.
  induction cks as [|a r IH]; intros dks K; simpl; [tauto|].
  rewrite IH, in_push_missing. split; intros H; intuition auto.
Qed.





End MapMerger.

Section MapMergerClaims.

Context {U : Type} (E : Env U).


End MapMergerClaims.

(** ** Theme inversion *)

Section Inversion.

Context {U : Type} (E : Env U).

Lemma append_assoc (a b c : string) : ((a ++ b) ++ c = a ++ (b ++ c))%string.
Proof. induction a as [|x a IH]; simpl; [reflexivity | rewrite IH; reflexivity]. Qed.

Lemma invertTheme_unfold (ps : props U) :
  invertTheme E (VObj ps) =
  (t <- foldM (fun t key =>
                 v <- invert_value E key (member ps key) ;;
                 Ret (obj_set t key v))
              (map fst ps) [] ;;
   Ret (VObj t)).
Proof. reflexivity. Qed.




End Inversion.

Section DoubleInversion.

Context {U : Type} (E : Env U).





End DoubleInversion.

(** ** The entry point *)

Section EntryPoint.

Context {U : Type} (E : Env U).

Lemma bind_assoc {A B C : Type} (r : result A) (f : A -> result B)
  (g : B -> result C) :
  bind (bind r f) g = bind r (fun a => bind (f a) g).
Proof. destruct r; reflexivity. Qed.

Lemma foldM_skip {A B : Type} (p : A -> bool) (g : B -> A -> result B)
  (l : list A) : forall b,
  foldM (fun b a => if p a then Ret b else g b a) l b =
  foldM g (filter (fun a => negb (p a)) l) b.
Proof.
  induction l as [|a r IH]; intros b; simpl; [reflexivity|].
  destruct (p a); simpl; [apply IH|].
  destruct (g b a); simpl; [apply IH | reflexivity].
Qed.

(** The theme [createStyling] builds: a value for each reserved key. *)
Lemma effective_theme_inv (input defaultBase16 r : value U) :
  effective_theme E input defaultBase16 = Ret r ->
  exists t,
    r = VObj t /\
    (forall k, In k (map fst t) <-> In k (BASE16_KEYS E)) /\
    (forall key, In key (BASE16_KEYS E) ->
       exists x y,
         get input key = Ret x /\
         (if truthy x then Ret x else get defaultBase16 key) = Ret y /\
         lookup key t = Some y).
Proof.
  set (F := fun key : string =>
              x <- get input key ;;
              if truthy x then Ret x else get defaultBase16 key).
  unfold effective_theme.
  rewrite (foldM_ext _ (fun t key => v <- F key ;; Ret (obj_set t key v)))
    by (intros b a _; unfold F; rewrite bind_assoc; reflexivity).
  match goal with
  | |- context [foldM ?f ?l ?b] => destruct (foldM f l b) as [t|] eqn:Hf
  end; simpl; [|discriminate].
  intros Hr. inversion Hr. subst r. exists t. split; [reflexivity|]. split.
  - intros k. rewrite (foldM_set_keys F _ _ _ k Hf). simpl. tauto.
  - intros key Hk. destruct (foldM_set_at F _ _ _ key Hf Hk) as (y & Hy & Hl).
    unfold F in Hy. destruct (get input key) as [x|]; simpl in Hy;
      [|discriminate].
    exists x, y. auto.
Qed.

(** The custom styling map: no reserved key, and every other property of
    an object input. *)
Lemma custom_styling_inv (input r : value U) :
  custom_styling E input = Ret r ->
  exists s,
    r = VObj s /\
    (forall k, In k (BASE16_KEYS E) -> lookup k s = None) /\
    (forall ps k, input = VObj ps -> ~ In k (BASE16_KEYS E) ->
       lookup k s = lookup k ps).
Proof.
  set (F := fun key : string => get input key).
  unfold custom_styling.
  destruct (object_keys input) as [ks|] eqn:Hks; simpl; [|discriminate].
  rewrite (foldM_skip (fun key => mem_key key (BASE16_KEYS E))
             (fun s key => v <- F key ;; Ret (obj_set s key v))).
  match goal with
  | |- context [foldM ?f ?l ?b] => destruct (foldM f l b) as [s|] eqn:Hf
  end; simpl; [|discriminate].
  intros Hr. inversion Hr. subst r. exists s. split; [reflexivity|]. split.
  - intros k Hk. rewrite (foldM_set_other F _ _ _ k Hf); [reflexivity|].
    rewrite filter_In. intros [_ Hn]. apply mem_key_in in Hk.
    rewrite Hk in Hn. discriminate.
  - intros ps k -> Hk. simpl in Hks. inversion Hks. subst ks.
    destruct (in_dec string_dec k (map fst ps)) as [Hi|Hn].
    + destruct (foldM_set_at F _ _ _ k Hf) as (v & Hv & Hl).
      * apply filter_In. split; [exact Hi|].
        apply mem_key_not_in in Hk. rewrite Hk. reflexivity.
      * rewrite Hl. unfold F in Hv. cbn in Hv. inversion Hv.
        apply in_lookup_some in Hi. destruct Hi as [w Hw]. rewrite Hw.
        rewrite (member_some _ _ _ Hw). reflexivity.
    + rewrite (foldM_set_other F _ _ _ k Hf).
      * simpl. symmetry. apply lookup_none_iff, Hn.
      * rewrite filter_In. unfold own_keys. simpl. tauto.
Qed.

(** The merge of a custom object with whatever the caller's function
    returned. *)
Lemma mergeStylings_inv (c : props U) (defaultStylings r : value U) :
  mergeStylings E (VObj c) defaultStylings = Ret r ->
  exists m,
    r = VObj m /\
    (forall K, In K (map fst m) <->
               In K (own_keys defaultStylings) \/ In K (map fst c)) /\
    (forall K, In K (own_keys defaultStylings) \/ In K (map fst c) ->
       exists d, get defaultStylings K = Ret d /\
                 lookup K m = Some (mergeStyling E (member c K) d)).
Proof.
  set (F := fun key : string =>
              d <- get defaultStylings key ;;
              Ret (mergeStyling E (member c key) d)).
  unfold mergeStylings.
  destruct (object_keys defaultStylings) as [ks|]; simpl; [|discriminate].
  rewrite (foldM_ext _ (fun t key => v <- F key ;; Ret (obj_set t key v)))
    by (intros b a _; unfold F; cbn; rewrite bind_assoc; reflexivity).
  match goal with
  | |- context [foldM ?f ?l ?b] => destruct (foldM f l b) as [m|] eqn:Hf
  end; simpl; [|discriminate].
  intros Hr. inversion Hr. subst r. exists m. split; [reflexivity|].
  assert (Hin : forall K, In K (merge_keys (VObj c) defaultStylings) <->
                  In K (own_keys defaultStylings) \/ In K (map fst c)).
  { intros K. unfold merge_keys. rewrite in_fold_push. reflexivity. }
  split.
  - intros K. rewrite (foldM_set_keys F _ _ _ K Hf), Hin. simpl. tauto.
  - intros K HK. apply Hin in HK.
    destruct (foldM_set_at F _ _ _ K Hf HK) as (v & Hv & Hl).
    unfold F in Hv. destruct (get defaultStylings K) as [d|]; simpl in Hv;
      [|discriminate].
    exists d. inversion Hv. subst v. auto.
Qed.

End EntryPoint.

(** ** Index keys and the characters of a string *)

Section IndexKeys.

Context {U : Type}.

Lemma index_key_inj (i j : nat) : index_key i = index_key j -> i = j.
Proof.
  unfold index_key. intros H.
  apply DecimalNat.Unsigned.to_uint_inj.
  apply (f_equal NilEmpty.uint_of_string) in H.
  rewrite !NilEmpty.usu in H. congruence.
Qed.

Lemma string_entries_keys (s : string) : forall b k,
  In k (map fst (string_entries_from (U := U) b s)) ->
  exists i, k = index_key i /\ b <= i.
Proof.
  induction s as [|c r IH]; intros b k; simpl; [tauto|].
  intros [<-|H]; [exists b; auto|].
  destruct (IH _ _ H) as (i & -> & Hi). exists i. split; [reflexivity|lia].
Qed.

Lemma string_entries_nodup (s : string) : forall b,
  NoDup (map fst (string_entries_from (U := U) b s)).
Proof.
  induction s as [|c r IH]; intros b; simpl; constructor; [|apply IH].
  intros H. apply string_entries_keys in H. destruct H as (i & He & Hi).
  apply index_key_inj in He. lia.
Qed.

Lemma lookup_string_entries (s : string) : forall b i ch,
  String.get i s = Some ch ->
  lookup (index_key (b + i)) (string_entries_from (U := U) b s) =
  Some (VStr (String ch EmptyString)).
Proof.
  induction s as [|c r IH]; intros b i ch; simpl; [discriminate|].
  destruct i as [|i].
  - intros H. inversion H. subst. rewrite Nat.add_0_r, String.eqb_refl.
    reflexivity.
  - intros H. destruct (String.eqb _ _) eqn:He.
    + apply String.eqb_eq, index_key_inj in He. lia.
    + replace (b + S i) with (S b + i) by lia. apply IH, H.
Qed.

(** What [{...o, ...s}] holds at the index of a character of the string
    [s]. *)
Lemma lookup_spread_string (o : value U) (s : string) (i : nat) (ch : ascii) :
  String.get i s = Some ch ->
  lookup (index_key i) (spread2 o (VStr s)) =
  Some (VStr (String ch EmptyString)).
Proof.
  intros H. unfold spread2. unfold spread_into at 1.
  rewrite lookup_fold_set. cbn [own_entries].
  rewrite lookup_rev_nodup by apply string_entries_nodup.
  pose proof (lookup_string_entries s 0 i ch H) as Hl. simpl in Hl.
  rewrite Hl. reflexivity.
Qed.

End IndexKeys.

Section EntryPointClaims.

Context {U : Type} (E : Env U).

(** C3 (amended).  For each reserved key the theme [createStyling] builds
    holds the effective input's value when that value is truthy, and
    otherwise the value [defaultBase16] has at the key, [defaultBase16]
    being [options.defaultBase16], or the built-in default theme when
    that option is [undefined]: the fallback to the built-in theme is for
    the option as a whole, not key by key. *)
Theorem createStyling_theme_fallback
  (options themeOrStyling d b base16Theme theme custom : value U) :
  get (default_to (VObj []) options) "defaultBase16" = Ret d ->
  get (default_to (VObj []) options) "base16Themes" = Ret b ->
  getBase16Theme E (default_to (VObj []) themeOrStyling) (default_to VNull b)
    = Ret base16Theme ->
  theme_and_custom E options themeOrStyling = Ret (theme, custom) ->
  forall key, In key (BASE16_KEYS E) ->
    exists x,
      get (effective_input (default_to (VObj []) themeOrStyling) base16Theme)
          key = Ret x /\
      get theme key =
      (if truthy x then Ret x
       else get (default_to (DEFAULT_BASE16 E) d) key).
Proof.
  intros Hd Hb Ht H key Hk. unfold theme_and_custom in H.
  rewrite Hd, Hb in H. cbn [bind] in H. rewrite Ht in H. cbn [bind] in H.
  destruct (effective_theme E _ _) as [th|] eqn:Hth; [|discriminate].
  cbn [bind] in H. destruct (custom_styling E _) as [cs|]; [|discriminate].
  cbn [bind] in H. inversion H. subst th cs. clear H.
  destruct (effective_theme_inv E _ _ _ Hth) as (t & -> & _ & Hv).
  destruct (Hv key Hk) as (x & y & Hx & Hy & Hl).
  exists x. split; [exact Hx|]. rewrite Hy. cbn [get own_entries]; unfold member.
  rewrite Hl. reflexivity.
Qed.

End EntryPointClaims.

Section StringTheme.

Context {U : Type} (E : Env U).

(** C9 (amended).  When the theme-or-styling argument is a string that
    resolves to a registered theme, the overlay
    [{...base16Theme, ...themeOrStyling}] holds each character of the
    string under its index.  Where that index is no reserved key, the
    custom styling map holds the character as a one-character string, and
    the merged styling map has the index among its keys, its value there
    being [mergeStyling] of the character and the value of the default
    styling map at the index: the character itself when the default
    styling map has no value there. *)
Theorem createStyling_string_theme_characters
  (options b base16Theme theme custom : value U) (name : string) :
  get (default_to (VObj []) options) "base16Themes" = Ret b ->
  getBase16Theme E (VStr name) (default_to VNull b) = Ret base16Theme ->
  truthy base16Theme = true ->
  theme_and_custom E options (VStr name) = Ret (theme, custom) ->
  forall i ch,
    String.get i name = Some ch ->
    ~ In (index_key i) (BASE16_KEYS E) ->
    get (effective_input (VStr name) base16Theme) (index_key i)
      = Ret (VStr (String ch EmptyString)) /\
    get custom (index_key i) = Ret (VStr (String ch EmptyString)) /\
    (forall getStylingFromBase16 defaultStyling merged,
       call_value E getStylingFromBase16 [theme] = Ret defaultStyling ->
       merged_styling E getStylingFromBase16 options (VStr name) = Ret merged ->
       In (index_key i) (own_keys merged) /\
       exists dv,
         get defaultStyling (index_key i) = Ret dv /\
         get merged (index_key i)
           = Ret (mergeStyling E (VStr (String ch EmptyString)) dv) /\
         (dv = VUndef ->
          get merged (index_key i) = Ret (VStr (String ch EmptyString)))).
Proof.
  intros Hb Ht Htr H i ch Hch Hres.
  pose proof H as H0. unfold theme_and_custom in H.
  destruct (get (default_to (VObj []) options) "defaultBase16") as [d|];
    [|discriminate].
  cbn [bind] in H. rewrite Hb in H. cbn [bind] in H.
  change (default_to (VObj []) (VStr name)) with (VStr name : value U) in H.
  rewrite Ht in H. cbn [bind] in H.
  destruct (effective_theme E _ _) as [th|]; [|discriminate].
  cbn [bind] in H.
  destruct (custom_styling E _) as [cs|] eqn:Hcs; [|discriminate].
  cbn [bind] in H. inversion H. subst th cs. clear H.
  unfold effective_input in *. rewrite Htr in *.
  pose proof (lookup_spread_string base16Theme name i ch Hch) as Hov.
  destruct (custom_styling_inv E _ _ Hcs) as (s & -> & _ & Hs).
  assert (Hcu : lookup (index_key i) s = Some (VStr (String ch EmptyString))).
  { rewrite (Hs _ _ eq_refl Hres). exact Hov. }
  split; [|split].
  - cbn [get own_entries]; unfold member. rewrite Hov. reflexivity.
  - cbn [get own_entries]; unfold member. rewrite Hcu. reflexivity.
  - intros f ds merged Hf Hm. unfold merged_styling in Hm.
    rewrite H0 in Hm. cbn [bind fst snd] in Hm. rewrite Hf in Hm.
    cbn [bind] in Hm.
    destruct (mergeStylings_inv E _ _ _ Hm) as (m & -> & Hk & Hv).
    assert (Hin : In (index_key i) (own_keys ds) \/ In (index_key i) (map fst s))
      by (right; eapply lookup_some_in, Hcu).
    split; [apply Hk, Hin|].
    destruct (Hv _ Hin) as (dv & Hdv & Hl).
    rewrite (member_some _ _ _ Hcu) in Hl.
    exists dv. split; [exact Hdv|].
    cbn [get own_entries]; unfold member. rewrite Hl. split; [reflexivity|].
    intros ->. reflexivity.
Qed.

End StringTheme.

Section ReservedKeyStyling.

Context {U : Type} (E : Env U).




End ReservedKeyStyling.

(** ** Theme references by name *)

Section UnknownName.

Context {U : Type} (E : Env U).

Lemma split_on_absent (sep : ascii) (s : string) :
  (forall i, String.get i s <> Some sep) -> split_on sep s = [s].
Proof.
  induction s as [|c r IH]; intros H; simpl; [reflexivity|].
  destruct (Ascii.eqb c sep) eqn:He.
  - apply Ascii.eqb_eq in He. subst. exfalso. exact (H 0 eq_refl).
  - rewrite IH; [reflexivity|]. intros i. exact (H (S i)).
Qed.

Lemma split_on_first (sep : ascii) (s rest : string) :
  (forall i, String.get i s <> Some sep) ->
  split_on sep (s ++ String sep rest) = s :: split_on sep rest.
Proof.
  induction s as [|c r IH]; intros H; simpl.
  - rewrite Ascii.eqb_refl. reflexivity.
  - destruct (Ascii.eqb c sep) eqn:He.
    + apply Ascii.eqb_eq in He. subst. exfalso. exact (H 0 eq_refl).
    + rewrite IH; [reflexivity|]. intros i. exact (H (S i)).
Qed.

Lemma index_key_not_extend (i : nat) : index_key i <> "extend".
Proof. unfold index_key. destruct (Nat.to_uint i); simpl; discriminate. Qed.

(** A string has no [extend] property. *)
Lemma string_extend (s : string) : get (VStr s : value U) "extend" = Ret VUndef.
Proof.
  cbn. unfold member.
  destruct (lookup "extend" (string_entries_from (U := U) 0 s)) eqn:Hl;
    [|reflexivity].
  apply lookup_some_in, string_entries_keys in Hl.
  destruct Hl as (i & Hi & _). symmetry in Hi.
  apply index_key_not_extend in Hi. contradiction.
Qed.

Lemma getBase16Theme_string (s : string) (base16Themes : value U) :
  getBase16Theme E (VStr s) base16Themes =
  (theme <-
     (let parts := split_on ":" s in
      a <- get (if truthy base16Themes then base16Themes else VObj [])
             (hd "" parts) ;;
      let t := if truthy a then a
               else or_undefined (lookup (hd "" parts) (base16 E)) in
      if match nth_error parts 1 with
         | Some m => String.eqb m "inverted"
         | None => false
         end
      then invertTheme E t
      else Ret t) ;;
   if truthy theme
   then own <- has_base00 E theme ;;
        Ret (if truthy own then theme else VUndef)
   else Ret VUndef).
Proof.
  unfold getBase16Theme. destruct (truthy (VStr s)).
  - rewrite string_extend. reflexivity.
  - reflexivity.
Qed.

(** C1.  A theme reference by a name that neither registry has resolves
    to [undefined]; the same name followed by [:inverted] does not: the
    inverter is called on the missing theme, [Object.keys(undefined)]
    throws, and so does [createStyling] on that reference. *)
Theorem getBase16Theme_unknown_name
  (getStylingFromBase16 options d b : value U) (name : string)
  (args : list (value U)) :
  (forall i, String.get i name <> Some ":"%char) ->
  get (default_to (VObj []) options) "defaultBase16" = Ret d ->
  get (default_to (VObj []) options) "base16Themes" = Ret b ->
  get (if truthy (default_to VNull b) then default_to VNull b else VObj [])
      name = Ret VUndef ->
  lookup name (base16 E) = None ->
  getBase16Theme E (VStr name) (default_to VNull b) = Ret VUndef /\
  getBase16Theme E (VStr (name ++ ":inverted")) (default_to VNull b) = Throw /\
  createStyling E getStylingFromBase16 options (VStr (name ++ ":inverted")) args
    = Throw.
Proof.
  intros Hc Hd Hb Hcustom Hbuiltin.
  assert (H1 : getBase16Theme E (VStr (name ++ ":inverted")) (default_to VNull b)
               = Throw).
  { rewrite getBase16Theme_string.
    change (name ++ ":inverted")%string
      with (name ++ String ":" "inverted")%string.
    rewrite (split_on_first _ _ _ Hc). cbn [hd nth_error split_on].
    simpl split_on. cbn [hd nth_error]. rewrite Hcustom. cbn [bind truthy].
    rewrite Hbuiltin. reflexivity. }
  split; [|split].
  - rewrite getBase16Theme_string, (split_on_absent _ _ Hc).
    cbn [hd nth_error]. rewrite Hcustom. cbn [bind truthy].
    rewrite Hbuiltin. reflexivity.
  - exact H1.
  - unfold createStyling, merged_styling, theme_and_custom.
    rewrite Hd, Hb. cbn [bind].
    change (default_to (VObj []) (VStr (name ++ ":inverted")))
      with (VStr (name ++ ":inverted") : value U).
    rewrite H1. reflexivity.
Qed.

End UnknownName.

(** * Examples on the concrete environment *)

Local Open Scope string_scope.

(** C8 needs no example: it has no hypothesis. *)

(** C10 at a number merged with a class name. *)
Lemma mergeStyling_unmatched_type_number :
  mergeStyling sample_env (VNum 1) (VStr "a") = VUndef.
Proof.
  apply (mergeStyling_unmatched_type sample_env (VNum 1) (VStr "a")).
  - discriminate.
  - discriminate.
  - left. simpl. repeat split; discriminate.
Defined.

(** C6 at the key ['a'] of a two-key map. *)
Lemma getStylingByKeys_single_key :
  getStylingByKeys sample_env
    (VObj [("a", VStr "x"); ("b", VStr "y")]) (VStr "a") [] =
  getStylingByKeys sample_env
    (VObj [("a", VStr "x"); ("b", VStr "y")]) (VArr [VStr "a"]) [].
Proof.
  apply (proj2 (getStylingByKeys_null_and_single sample_env
                  (VObj [("a", VStr "x"); ("b", VStr "y")]) []));
    reflexivity.
Defined.



(** On the sample conversions the greys of channel 102 to 152, whose luma
    lies between 0.4 and 0.6, come back from two inversions within one
    channel step (of 255). *)
Lemma invertColor_twice_mid_greys :
  Forall (fun n =>
            exists c1 c2,
              invertColor sample_env (grey n) = Ret c1 /\
              invertColor sample_env c1 = Ret c2 /\
              restored_within 1 (grey n) c2)
         (seq 102 51).
Proof.
  repeat (constructor;
          [eexists; eexists;
           split; [vm_compute; reflexivity|];
           split; [vm_compute; reflexivity|];
           vm_compute; intuition discriminate|]).
  constructor.
Qed.




(** C3 (amended) at the key [base00] of an input without colours. *)
Lemma createStyling_theme_fallback_default :
  exists theme custom,
    theme_and_custom sample_env VUndef (VObj [("x", VStr "cls")])
      = Ret (theme, custom) /\
    get theme "base00" = Ret (VStr "#181818").
Proof.
  destruct (theme_and_custom sample_env VUndef (VObj [("x", VStr "cls")]))
    as [[theme custom]|] eqn:H; [|vm_compute in H; discriminate].
  exists theme, custom. split; [reflexivity|].
  destruct (createStyling_theme_fallback sample_env
              VUndef (VObj [("x", VStr "cls")]) VUndef VUndef VUndef
              theme custom eq_refl eq_refl eq_refl H "base00")
    as (x & Hx & Hg).
  - vm_compute. tauto.
  - vm_compute in Hx. inversion Hx. subst x. rewrite Hg. reflexivity.
Defined.

(** C3 as stated fails at [options = {defaultBase16: {}}] and an empty
    input: the theme has [undefined] at [base00], where the three-tier
    reading gives the built-in default's ['#181818']. *)
Lemma createStyling_no_third_tier :
  (tc <- theme_and_custom sample_env
           (VObj [("defaultBase16", VObj [])]) (VObj []) ;;
   get (fst tc) "base00") = Ret VUndef /\
  three_tier (VObj []) (VObj []) (DEFAULT_BASE16 sample_env) "base00"
    = Ret (VStr "#181818").
Proof.
  split; vm_compute; reflexivity.
Qed.



(** C9 (amended) at the theme name ['default'] and its first character. *)
Lemma createStyling_string_theme_default :
  exists theme custom,
    theme_and_custom sample_env VUndef (VStr "default") = Ret (theme, custom) /\
    get custom "0" = Ret (VStr "d") /\
    (forall merged,
       merged_styling sample_env (VFun (FUser NoStyles)) VUndef (VStr "default")
         = Ret merged ->
       get merged "0" = Ret (VStr "d")).
Proof.
  destruct (theme_and_custom sample_env VUndef (VStr "default"))
    as [[theme custom]|] eqn:H; [|vm_compute in H; discriminate].
  exists theme, custom. split; [reflexivity|].
  destruct (createStyling_string_theme_characters sample_env
              VUndef VUndef (VObj sample_default) theme custom "default"
              eq_refl eq_refl eq_refl H 0 "d"%char eq_refl)
    as (_ & Hc & Hm).
  - vm_compute. intuition discriminate.
  - split; [exact Hc|]. intros merged Hmerged.
    destruct (Hm (VFun (FUser NoStyles)) (VObj []) merged eq_refl Hmerged)
      as (_ & dv & Hdv & _ & Hu).
    apply Hu. vm_compute in Hdv. inversion Hdv. reflexivity.
Defined.

(** C9 as stated fails when the default styling map has a value at such an
    index: with [getStylingFromBase16 = theme => ({0: 'x'})] and the theme
    name ['default'], the merged map holds ['x d'] at ['0'], not the
    one-character string ['d']. *)
Lemma createStyling_string_theme_default_index :
  (tc <- theme_and_custom sample_env VUndef (VStr "default") ;;
   get (snd tc) "0") = Ret (VStr "d") /\
  (merged <- merged_styling sample_env (VFun (FUser IndexStyles)) VUndef
               (VStr "default") ;;
   get merged "0") = Ret (VStr "x d") /\
  VStr "x d" <> (VStr "d" : value sample_fn).
Proof.
  split; [vm_compute; reflexivity|]. split; [vm_compute; reflexivity|].
  discriminate.
Qed.

(** C1 at the name ['nonexistent']: the plain reference resolves to
    [undefined], the inverted one throws. *)
Lemma getBase16Theme_nonexistent :
  getBase16Theme sample_env (VStr "nonexistent") VNull = Ret VUndef /\
  getBase16Theme sample_env (VStr "nonexistent:inverted") VNull = Throw /\
  createStyling sample_env (VFun (FUser ColorStyles)) VUndef
    (VStr "nonexistent:inverted") [] = Throw.
Proof.
  apply (getBase16Theme_unknown_name sample_env (VFun (FUser ColorStyles))
           VUndef VUndef VUndef "nonexistent" []).
  - intros i. do 11 (destruct i as [|i]; [discriminate|]). discriminate.
  - reflexivity.
  - reflexivity.
  - reflexivity.
  - reflexivity.
Defined.

(** The sibling path of C1: on the plain name [createStyling] returns a
    resolver built on the default colours. *)
Lemma createStyling_nonexistent_plain :
  createStyling sample_env (VFun (FUser ColorStyles)) VUndef
    (VStr "nonexistent") [VStr "base00"]
  = Ret (Resolved
           (VObj [("style",
                   VObj [("style", VObj [("color", VStr "#181818")])])])).
Proof. vm_compute. reflexivity. Qed.

(** * Further properties of the module *)

(** ** Objects: distinct keys, and reading a spread *)

Section Spreads.

Context {U : Type}.

Implicit Types (ps : props U) (k : string) (v : value U).

Lemma nodup_insert_index n k v ps :
  NoDup (map fst ps) -> ~ In k (map fst ps) ->
  NoDup (map fst (insert_index n k v ps)).
Proof.
  induction ps as [|[k0 v0] r IH]; simpl; intros Hd Hn.
  - constructor; [tauto | constructor].
  - inversion Hd as [|? ? H0 Hr]; subst.
    destruct (array_index k0) as [m|]; [destruct (m <? n)%N|]; simpl.
    + constructor; [|apply IH; tauto].
      rewrite in_keys_insert_index. intros [->|H]; tauto.
    + constructor; [simpl; tauto | constructor; assumption].
    + constructor; [simpl; tauto | constructor; assumption].
Qed.

(** A write keeps the keys of an object pairwise distinct. *)
Lemma nodup_obj_set ps k v :
  NoDup (map fst ps) -> NoDup (map fst (obj_set ps k v)).
Proof.
  intros Hd. unfold obj_set. destruct (has_key k ps) eqn:Hh.
  - rewrite keys_replace_prop. exact Hd.
  - assert (Hn : ~ In k (map fst ps)).
    { apply lookup_none_iff. unfold has_key in Hh.
      destruct (lookup k ps); [discriminate | reflexivity]. }
    destruct (array_index k) as [n|].
    + apply nodup_insert_index; assumption.
    + rewrite map_app. simpl. apply NoDup_app; [exact Hd | repeat constructor; tauto |].
      intros a Ha [<-|[]]. contradiction.
Qed.

Lemma nodup_fold_set (l : props U) : forall ps,
  NoDup (map fst ps) ->
  NoDup (map fst (fold_left (fun o p => obj_set o (fst p) (snd p)) l ps)).
Proof.
  induction l as [|[k0 v0] r IH]; intros ps Hd; simpl; [exact Hd|].
  apply IH, nodup_obj_set, Hd.
Qed.

Lemma nodup_spread2 (a b : value U) : NoDup (map fst (spread2 a b)).
Proof.
  unfold spread2, spread_into. do 2 apply nodup_fold_set. constructor.
Qed.

Lemma array_entries_keys (l : list (value U)) : forall b k,
  In k (map fst (array_entries_from b l)) ->
  exists i, k = index_key i /\ b <= i.
Proof.
  induction l as [|c r IH]; intros b k; simpl; [tauto|].
  intros [<-|H]; [exists b; auto|].
  destruct (IH _ _ H) as (i & -> & Hi). exists i. split; [reflexivity|lia].
Qed.

Lemma array_entries_nodup (l : list (value U)) : forall b,
  NoDup (map fst (array_entries_from b l)).
Proof.
  induction l as [|c r IH]; intros b; simpl; constructor; [|apply IH].
  intros H. apply array_entries_keys in H. destruct H as (i & He & Hi).
  apply index_key_inj in He. lia.
Qed.

Lemma distinct_keys_not_object (v : value U) :
  (forall ps, v <> VObj ps) -> distinct_keys v.
Proof.
  unfold distinct_keys, own_keys. destruct v; intros H; simpl;
    try constructor.
  - apply string_entries_nodup.
  - exfalso. eapply H. reflexivity.
  - apply array_entries_nodup.
Qed.

(** Reading [{...a, ...b}]: the property of [b], else the one of [a]. *)
Lemma lookup_spread2 (a b : value U) k :
  distinct_keys a -> distinct_keys b ->
  lookup k (spread2 a b) =
  match lookup k (own_entries b) with
  | Some v => Some v
  | None => lookup k (own_entries a)
  end.
Proof.
  intros Ha Hb. unfold spread2, spread_into. rewrite !lookup_fold_set.
  rewrite !lookup_rev_nodup by assumption.
  destruct (lookup k (own_entries b)); [reflexivity|].
  destruct (lookup k (own_entries a)); reflexivity.
Qed.

Lemma in_keys_spread2 (a b : value U) k :
  In k (map fst (spread2 a b)) <-> In k (own_keys a) \/ In k (own_keys b).
Proof.
  assert (Hf : forall (l : props U) ps,
            In k (map fst (fold_left (fun o p => obj_set o (fst p) (snd p)) l ps))
            <-> In k (map fst ps) \/ In k (map fst l)).
  { induction l as [|[k0 v0] r IH]; intros ps; simpl; [tauto|].
    rewrite IH, in_keys_obj_set. intuition auto. }
  unfold spread2, spread_into. rewrite !Hf. simpl. unfold own_keys. tauto.
Qed.

End Spreads.

(** ** The merge of two stylings, case by case *)

Section MergeCases.

Context {U : Type} (E : Env U).

Lemma join_truthy_names (a b : string) :
  join_truthy E [VStr a; VStr b] = join_names a b.
Proof. destruct a, b; reflexivity. Qed.

Lemma join_names_assoc (a b c : string) :
  join_names (join_names a b) c = join_names a (join_names b c).
Proof.
  destruct a as [|x a], b as [|y b], c as [|z c]; try reflexivity.
  unfold join_names. simpl. rewrite append_assoc. reflexivity.
Qed.

(** X1.  The merge of two class names is the default one followed by the
    custom one, a single space between them; when one of the two is the
    empty string, the merge is the other one as it is, without a space
    added. *)
Theorem mergeStyling_class_names (customStyling defaultStyling : string) :
  mergeStyling E (VStr customStyling) (VStr defaultStyling) =
  VStr (if String.eqb defaultStyling "" then customStyling
        else if String.eqb customStyling "" then defaultStyling
        else defaultStyling ++ " " ++ customStyling).
Proof.
  unfold mergeStyling.
  cbn [is_undefined typeof fall_through inner_string].
  rewrite join_truthy_names. reflexivity.
Qed.

(** X2.  Merging class names is associative: whichever two of three class
    names are merged first, the result is the same. *)
Theorem mergeStyling_class_names_assoc (a b c : string) :
  mergeStyling E (VStr c) (mergeStyling E (VStr b) (VStr a)) =
  mergeStyling E (mergeStyling E (VStr c) (VStr b)) (VStr a).
Proof.
  unfold mergeStyling.
  cbn [is_undefined typeof fall_through inner_string].
  rewrite !join_truthy_names. f_equal. apply join_names_assoc.
Qed.

(** X3.  The merge of two style objects has the keys of both, and at each
    key the value of the custom object when it has the key, else the value
    of the default object. *)
Theorem mergeStyling_objects_custom_wins (customStyling defaultStyling : props U) :
  distinct_keys (VObj customStyling) ->
  distinct_keys (VObj defaultStyling) ->
  exists merged,
    mergeStyling E (VObj customStyling) (VObj defaultStyling) = VObj merged /\
    (forall k, In k (own_keys (VObj merged)) <->
               In k (own_keys (VObj defaultStyling)) \/
               In k (own_keys (VObj customStyling))) /\
    (forall k,
       lookup k merged =
       match lookup k customStyling with
       | Some v => Some v
       | None => lookup k defaultStyling
       end).
Proof.
  intros Hc Hd. exists (spread2 (VObj defaultStyling) (VObj customStyling)).
  split; [reflexivity|]. split.
  - intros k. apply in_keys_spread2.
  - intros k. apply (lookup_spread2 _ _ k Hd Hc).
Qed.

(** X4.  A class name and a value of type [object] merge into the same
    styling whichever of the two is the custom one; applied to props, it
    appends the class name to the [className] of the props and spreads the
    object over their [style]. *)
Theorem mergeStyling_class_name_and_object
  (name : string) (object : value U) (prev : props U) (args : list (value U)) :
  typeof object = TObject ->
  mergeStyling E (VStr name) object = mergeStyling E object (VStr name) /\
  call_value E (mergeStyling E (VStr name) object) (VObj prev :: args) =
  Ret (VObj
         [("className",
           VStr (join_truthy E [or_undefined (lookup "className" prev);
                                VStr name]));
          ("style",
           VObj (spread2 (or_empty (or_undefined (lookup "style" prev)))
                         (or_empty object)))]).
Proof.
  intros Ht. destruct object; try discriminate Ht; split; reflexivity.
Qed.

(** X5.  Merging styling functions is associative in what the merged
    function does: on every argument list, the merge of [f] with the merge
    of [g] and [h], and the merge of [f] and [g] merged with [h], both run
    [h] first, on the first argument ([undefined] when there is none)
    followed by the other arguments; then [g], on the result of [h]
    followed by those other arguments; then [f], on the result of [g]
    followed by the same.  An exception of one of the three ends the
    call. *)
Theorem mergeStyling_functions_assoc (f g h : func U) (args : list (value U)) :
  call_value E (mergeStyling E (VFun f) (mergeStyling E (VFun g) (VFun h))) args =
  (r1 <- call E h (hd VUndef args :: tl args) ;;
   r2 <- call E g (r1 :: tl args) ;;
   call E f (r2 :: tl args)) /\
  call_value E (mergeStyling E (mergeStyling E (VFun f) (VFun g)) (VFun h)) args =
  (r1 <- call E h (hd VUndef args :: tl args) ;;
   r2 <- call E g (r1 :: tl args) ;;
   call E f (r2 :: tl args)).
Proof.
  split; cbn; destruct (call E h (hd VUndef args :: tl args)); reflexivity.
Qed.

(** X6.  A class name or a style object merged over a default styling
    function gives a function that throws whenever the default function
    returns [undefined] or [null]: the result is read for its [className]
    before anything is merged into it. *)
Theorem mergeStyling_default_function_returns_nothing
  (customStyling : value U) (g : func U) (args : list (value U)) (r : value U) :
  typeof customStyling = TString \/ typeof customStyling = TObject ->
  call E g (hd VUndef args :: tl args) = Ret r ->
  r = VUndef \/ r = VNull ->
  call_value E (mergeStyling E customStyling (VFun g)) args = Throw.
Proof.
  intros Ht Hg Hr.
  destruct customStyling; cbn in Ht; destruct Ht as [Ht|Ht];
    try discriminate Ht; cbn; rewrite Hg; destruct Hr as [-> | ->];
    reflexivity.
Qed.

(** X7.  A styling function merged over a default class name or style
    object gives a function that throws when called with [undefined] or
    [null] props, before the styling function runs. *)
Theorem mergeStyling_literal_default_needs_props
  (f : func U) (defaultStyling styling : value U) (rest : list (value U)) :
  typeof defaultStyling = TString \/ typeof defaultStyling = TObject ->
  styling = VUndef \/ styling = VNull ->
  call_value E (mergeStyling E (VFun f) defaultStyling) (styling :: rest) = Throw
  /\ call_value E (mergeStyling E (VFun f) defaultStyling) [] = Throw.
Proof.
  intros Ht Hs.
  destruct defaultStyling; cbn in Ht; destruct Ht as [Ht|Ht];
    try discriminate Ht; destruct Hs as [-> | ->]; split; reflexivity.
Qed.

End MergeCases.

(** ** The key resolver on literal stylings *)

Section ResolverLiterals.

Context {U : Type} (E : Env U).

Lemma mapM_get_object (m : props U) (ks : list (value U)) :
  mapM (fun key => get (VObj m) (to_string E key)) ks =
  Ret (map (fun key => member m (to_string E key)) ks).
Proof.
  induction ks as [|k r IH]; [reflexivity|].
  cbn [mapM map]. rewrite IH. reflexivity.
Qed.

Lemma class_names_truthy (l : list (value U)) :
  class_names (filter truthy l) = class_names l.
Proof.
  induction l as [|v r IH]; simpl; [reflexivity|].
  destruct (truthy v) eqn:Ht; simpl; rewrite IH; [reflexivity|].
  destruct v; try reflexivity. simpl in Ht.
  destruct (String.eqb s ""); [reflexivity | discriminate].
Qed.

Lemma last_defined_truthy (k : string) (l : list (value U)) : forall acc,
  last_defined k (filter truthy l) acc = last_defined k l acc.
Proof.
  unfold last_defined.
  induction l as [|v r IH]; intros acc; simpl; [reflexivity|].
  destruct (truthy v) eqn:Ht; simpl; [apply IH|].
  rewrite IH. destruct v; try reflexivity; discriminate Ht.
Qed.

Lemma concat_names (l : list string) : forall a,
  a <> "" -> Forall (fun s => s <> "") l ->
  fold_left join_names l a = String.concat " " (a :: l).
Proof.
  induction l as [|s r IH]; intros a Ha Hl; [reflexivity|].
  inversion Hl as [|? ? Hs Hr]; subst. cbn [fold_left].
  assert (Hj : join_names a s = a ++ " " ++ s).
  { unfold join_names. apply String.eqb_neq in Ha, Hs. rewrite Ha, Hs.
    reflexivity. }
  rewrite Hj, IH; [| |exact Hr].
  - simpl. destruct r; [reflexivity|]. rewrite append_assoc. reflexivity.
  - destruct a; [contradiction | discriminate].
Qed.

Lemma fold_names (l : list string) :
  Forall (fun s => s <> "") l ->
  fold_left join_names l "" = String.concat " " l.
Proof.
  destruct l as [|s r]; intros Hl; [reflexivity|].
  inversion Hl; subst. cbn [fold_left]. apply concat_names; assumption.
Qed.

Lemma class_names_nonempty (l : list (value U)) :
  Forall (fun s => s <> "") (class_names l).
Proof.
  induction l as [|v r IH]; simpl; [constructor|].
  apply Forall_app. split; [|exact IH].
  destruct v; try constructor.
  destruct (String.eqb s "") eqn:Hs; constructor; [|constructor].
  apply String.eqb_neq, Hs.
Qed.

Lemma concat_empty (l : list string) :
  Forall (fun s => s <> "") l ->
  String.concat " " l = "" -> l = [].
Proof.
  destruct l as [|s r]; [reflexivity|]. intros Hl H.
  inversion Hl; subst. destruct s; [contradiction|].
  destruct r; discriminate H.
Qed.

(** The fold of the resolver over stylings none of which is a function. *)
Lemma fold_literals (args : list (value U)) (styles : list (value U)) :
  forall (a : string) (S : props U),
    NoDup (map fst S) ->
    (forall v, In v styles ->
       truthy v = true /\ typeof v <> TFunction /\ distinct_keys v) ->
    exists S',
      foldM (styling_step E args) styles
        [("className", VStr a); ("style", VObj S)]
      = Ret [("className", VStr (fold_left join_names (class_names styles) a));
             ("style", VObj S')] /\
      NoDup (map fst S') /\
      (forall k, lookup k S' = last_defined k styles (lookup k S)).
Proof.
  induction styles as [|v r IH]; intros a S HS Hall.
  - exists S. split; [reflexivity|]. split; [exact HS|].
    intros k. reflexivity.
  - destruct (Hall v (or_introl eq_refl)) as (Ht & Hf & Hd).
    assert (Hr : forall w, In w r ->
              truthy w = true /\ typeof w <> TFunction /\ distinct_keys w)
      by (intros w Hw; apply Hall; right; exact Hw).
    assert (Hobj : typeof v = TObject ->
              exists S',
                foldM (styling_step E args) (v :: r)
                  [("className", VStr a); ("style", VObj S)]
                = Ret [("className",
                        VStr (fold_left join_names (class_names (v :: r)) a));
                       ("style", VObj S')] /\
                NoDup (map fst S') /\
                (forall k, lookup k S' = last_defined k (v :: r) (lookup k S))).
    { intros Hty.
      destruct (IH a (spread2 (VObj S) v) (nodup_spread2 _ _) Hr)
        as (S' & Hfold & Hnd & Hl).
      exists S'. split; [|split; [exact Hnd|]].
      - cbn [foldM]. unfold styling_step at 1. rewrite Hty.
        cbn [bind lookup String.eqb Ascii.eqb Bool.eqb or_undefined].
        change (obj_set [("className", VStr a); ("style", VObj S)] "style"
                  (VObj (spread2 (VObj S) v)))
          with [("className", VStr a); ("style", VObj (spread2 (VObj S) v))].
        rewrite Hfold. f_equal. f_equal. f_equal. f_equal.
        destruct v; try discriminate Hty; reflexivity.
      - intros k. rewrite Hl. unfold last_defined. cbn [fold_left].
        rewrite Hty. f_equal.
        rewrite (lookup_spread2 (VObj S) v k HS Hd). reflexivity. }
    destruct v; try discriminate Ht;
      try (apply Hobj; reflexivity);
      try (exfalso; apply Hf; reflexivity).
    + (* a boolean *)
      destruct (IH a S HS Hr) as (S' & Hfold & Hnd & Hl).
      exists S'. split; [exact Hfold|]. split; [exact Hnd | exact Hl].
    + (* a number *)
      destruct (IH a S HS Hr) as (S' & Hfold & Hnd & Hl).
      exists S'. split; [exact Hfold|]. split; [exact Hnd | exact Hl].
    + (* a class name *)
      destruct (IH (join_names a s) S HS Hr) as (S' & Hfold & Hnd & Hl).
      exists S'. split; [|split; [exact Hnd | exact Hl]].
      cbn [foldM]. unfold styling_step at 1.
      cbn [typeof bind lookup String.eqb Ascii.eqb Bool.eqb or_undefined].
      rewrite join_truthy_names.
      change (obj_set [("className", VStr a); ("style", VObj S)] "className"
                (VStr (join_names a s)))
        with [("className", VStr (join_names a s)); ("style", VObj S)].
      rewrite Hfold. simpl in Ht. simpl class_names.
      destruct (String.eqb s ""); [discriminate Ht | reflexivity].
Qed.

End ResolverLiterals.

Section ResolverResults.

Context {U : Type} (E : Env U).

Lemma lookup_obj_delete (ps : props U) (k k' : string) :
  lookup k' (obj_delete ps k) =
  if String.eqb k k' then None else lookup k' ps.
Proof.
  unfold obj_delete. induction ps as [|[k0 v0] r IH]; simpl.
  - destruct (String.eqb k k'); reflexivity.
  - destruct (String.eqb k k0) eqn:H0; simpl.
    + rewrite IH. apply String.eqb_eq in H0. subst k0.
      rewrite (String.eqb_sym k' k). destruct (String.eqb k k'); reflexivity.
    + rewrite IH. destruct (String.eqb k' k0) eqn:H1; [|reflexivity].
      apply String.eqb_eq in H1. subst k0. rewrite H0. reflexivity.
Qed.

(** X8.  When none of the values the styling map reads at the requested
    keys is a function, the resolver returns the class names joined by
    single spaces in the order of the keys, and a style in which every
    property has the value of the last requested style object that has
    it; a falsy styling, a number and a boolean add nothing, and neither
    does a key the map lacks, unless it names a member the map inherits
    from [Object.prototype], which is read in its place.  [className] is
    left out when there is no class name, [style] when it has no
    property. *)
Theorem getStylingByKeys_literals
  (mergedStyling : props U) (keys args : list (value U)) :
  (forall key, In key keys ->
     truthy (member mergedStyling (to_string E key)) = true ->
     typeof (member mergedStyling (to_string E key))
       <> TFunction /\
     distinct_keys (member mergedStyling (to_string E key))) ->
  exists style,
    getStylingByKeys E (VObj mergedStyling) (VArr keys) args =
    Ret (VObj
      ((if String.eqb
            (String.concat " "
               (class_names
                  (map (fun key =>
                          member mergedStyling (to_string E key))
                       keys))) ""
        then []
        else [("className",
               VStr (String.concat " "
                  (class_names
                     (map (fun key =>
                             member mergedStyling (to_string E key))
                          keys))))])
       ++ match style with
          | [] => []
          | _ => [("style", VObj style)]
          end)%list) /\
    (forall k,
       lookup k style =
       last_defined k
         (map (fun key => member mergedStyling (to_string E key))
              keys) None).
Proof.
  intros Hall.
  set (looked := map (fun key =>
                   member mergedStyling (to_string E key)) keys).
  destruct (fold_literals E args (filter truthy looked) "" [])
    as (S & Hfold & _ & Hl).
  { constructor. }
  { intros v Hv. apply filter_In in Hv. destruct Hv as [Hin Ht].
    split; [exact Ht|]. unfold looked in Hin. apply in_map_iff in Hin.
    destruct Hin as (key & <- & Hkey). apply Hall; assumption. }
  exists S. split.
  - unfold getStylingByKeys. cbn [is_null is_array elements].
    rewrite mapM_get_object. cbn [bind]. fold looked.
    change (obj_literal [("className", VStr ""); ("style", VObj [])])
      with ([("className", VStr ""); ("style", VObj [])] : props U).
    rewrite Hfold. cbn [bind].
    rewrite class_names_truthy, fold_names by apply class_names_nonempty.
    cbn [lookup String.eqb Ascii.eqb Bool.eqb or_undefined truthy].
    destruct (String.eqb (String.concat " " (class_names looked)) "");
      cbn [negb]; destruct S; reflexivity.
  - intros k. rewrite Hl, last_defined_truthy. reflexivity.
Qed.

(** X9.  Whatever the stylings, a result of the resolver (for keys other
    than [null]) is an object in which [className], when present, is
    truthy, and [style], when present, has at least one property: an empty
    field is left out, never returned. *)
Theorem getStylingByKeys_no_empty_field
  (mergedStyling keys r : value U) (args : list (value U)) :
  is_null keys = false ->
  getStylingByKeys E mergedStyling keys args = Ret r ->
  exists p,
    r = VObj p /\
    (forall c, lookup "className" p = Some c -> truthy c = true) /\
    (forall s, lookup "style" p = Some s -> own_keys s <> []).
Proof.
  intros Hn. unfold getStylingByKeys. rewrite Hn.
  destruct (mapM _ _) as [looked|]; cbn [bind]; [|discriminate].
  destruct (foldM _ _ _) as [props0|]; cbn [bind]; [|discriminate].
  set (props1 := if truthy (or_undefined (lookup "className" props0))
                 then props0 else obj_delete props0 "className").
  destruct (object_keys (or_undefined (lookup "style" props1))) as [ks|] eqn:Hks;
    cbn [bind]; [|discriminate].
  intros Hr. inversion Hr. subst r. clear Hr. eexists. split; [reflexivity|].
  assert (Hc : forall c, lookup "className" props1 = Some c -> truthy c = true).
  { intros c. unfold props1.
    destruct (truthy (or_undefined (lookup "className" props0))) eqn:Ht.
    - intros Hc. rewrite Hc in Ht. exact Ht.
    - rewrite lookup_obj_delete. simpl. discriminate. }
  destruct ks as [|k0 ks]; cbn [List.length Nat.eqb].
  - split.
    + intros c. rewrite lookup_obj_delete. simpl. apply Hc.
    + intros s. rewrite lookup_obj_delete. simpl. discriminate.
  - split; [exact Hc|]. intros s Hs. rewrite Hs in Hks. simpl in Hks.
    destruct s; simpl in Hks; try discriminate Hks;
      inversion Hks as [He]; rewrite He; discriminate.
Qed.

End ResolverResults.

Section ResolverFunctions.

Context {U : Type} (E : Env U).

Lemma getStylingByKeys_single_function
  (m : props U) (key : value U) (f : func U) (args : list (value U)) :
  is_null key = false -> is_array key = false ->
  lookup (to_string E key) m = Some (VFun f) ->
  getStylingByKeys E (VObj m) key args =
  (r <- call E f (VObj [("className", VStr ""); ("style", VObj [])] :: args) ;;
   let props0 := spread2 (VObj [("className", VStr ""); ("style", VObj [])]) r in
   let props1 := if truthy (or_undefined (lookup "className" props0))
                 then props0 else obj_delete props0 "className" in
   ks <- object_keys (or_undefined (lookup "style" props1)) ;;
   Ret (VObj (if Nat.eqb (List.length ks) 0 then obj_delete props1 "style"
              else props1))).
Proof.
  intros Hn Ha Hl. unfold getStylingByKeys. rewrite Hn, Ha.
  rewrite (mapM_get_object E m [key]). cbn [map bind].
  rewrite (member_some _ _ _ Hl). cbn [filter truthy].
  change (obj_literal [("className", VStr ""); ("style", VObj [])])
    with ([("className", VStr ""); ("style", VObj [])] : props U).
  cbn [foldM]. unfold styling_step. cbn [typeof call_value].
  destruct (call E f _) as [r|]; reflexivity.
Qed.

Lemma lookup_spread2_right (a b : value U) (k : string) (v : value U) :
  distinct_keys b -> lookup k (own_entries b) = Some v ->
  lookup k (spread2 a b) = Some v.
Proof.
  intros Hb Hl. unfold spread2. unfold spread_into at 1.
  rewrite lookup_fold_set, lookup_rev_nodup by exact Hb.
  rewrite Hl. reflexivity.
Qed.

(** X10.  A styling function that returns a value without properties
    ([undefined], [null], a number, [{}], ...) adds nothing: resolving its
    key alone yields the empty object. *)
Theorem getStylingByKeys_function_without_properties
  (mergedStyling : props U) (key : value U) (f : func U)
  (args : list (value U)) (r : value U) :
  is_null key = false -> is_array key = false ->
  lookup (to_string E key) mergedStyling = Some (VFun f) ->
  call E f (VObj [("className", VStr ""); ("style", VObj [])] :: args) = Ret r ->
  own_entries r = [] ->
  getStylingByKeys E (VObj mergedStyling) key args = Ret (VObj []).
Proof.
  intros Hn Ha Hl Hc Hr.
  rewrite (getStylingByKeys_single_function _ _ _ _ Hn Ha Hl), Hc.
  cbn [bind]. unfold spread2, spread_into. rewrite Hr. reflexivity.
Qed.

(** X11.  A styling function that returns an object whose [style] is
    [undefined] or [null] makes the resolver throw when its key is
    resolved alone: the returned field replaces the accumulated style, and
    the keys of the style are read at the end. *)
Theorem getStylingByKeys_function_without_style
  (mergedStyling : props U) (key : value U) (f : func U)
  (args : list (value U)) (r style : value U) :
  is_null key = false -> is_array key = false ->
  lookup (to_string E key) mergedStyling = Some (VFun f) ->
  call E f (VObj [("className", VStr ""); ("style", VObj [])] :: args) = Ret r ->
  distinct_keys r ->
  lookup "style" (own_entries r) = Some style ->
  style = VUndef \/ style = VNull ->
  getStylingByKeys E (VObj mergedStyling) key args = Throw.
Proof.
  intros Hn Ha Hl Hc Hd Hs Hnull.
  rewrite (getStylingByKeys_single_function _ _ _ _ Hn Ha Hl), Hc.
  cbn [bind].
  set (props0 := spread2 (VObj [("className", VStr ""); ("style", VObj [])]) r).
  assert (H0 : lookup "style" props0 = Some style)
    by (apply lookup_spread2_right; assumption).
  assert (H1 : lookup "style"
                 (if truthy (or_undefined (lookup "className" props0))
                  then props0 else obj_delete props0 "className")
               = Some style).
  { destruct (truthy _); [exact H0|]. rewrite lookup_obj_delete. exact H0. }
  cbv zeta. rewrite H1. destruct Hnull as [-> | ->]; reflexivity.
Qed.

End ResolverFunctions.

(** ** The styling map merger and the entry point, further *)

Section EntryPointEdges.

Context {U : Type} (E : Env U).

Lemma get_returns (v : value U) (k : string) :
  v <> VUndef -> v <> VNull -> exists x, get v k = Ret x.
Proof.
  intros H1 H2. destruct v; try contradiction; cbn; eauto;
    destruct (String.eqb k "length"); eauto.
Qed.



(** X13.  [createStyling] throws when [getStylingFromBase16] is not a
    function, and when it returns [undefined] or [null] instead of a
    styling map. *)
Theorem createStyling_needs_styling_map
  (getStylingFromBase16 options themeOrStyling theme custom : value U)
  (args : list (value U)) :
  theme_and_custom E options themeOrStyling = Ret (theme, custom) ->
  (typeof getStylingFromBase16 <> TFunction ->
   createStyling E getStylingFromBase16 options themeOrStyling args = Throw) /\
  (forall r,
     call_value E getStylingFromBase16 [theme] = Ret r ->
     r = VUndef \/ r = VNull ->
     createStyling E getStylingFromBase16 options themeOrStyling args = Throw).
Proof.
  intros H. unfold createStyling, merged_styling. rewrite H. cbn [bind fst snd].
  split.
  - intros Hf. destruct getStylingFromBase16; try reflexivity.
    exfalso. apply Hf. reflexivity.
  - intros r Hr Hn. rewrite Hr. cbn [bind].
    destruct Hn as [-> | ->]; reflexivity.
Qed.

(** X14.  [createStyling] throws on a [null] theme-or-styling argument,
    whatever the other arguments: the parameter default stands in for
    [undefined] only. *)
Theorem createStyling_null_input
  (getStylingFromBase16 options : value U) (args : list (value U)) :
  createStyling E getStylingFromBase16 options VNull args = Throw.
Proof.
  unfold createStyling, merged_styling, theme_and_custom.
  destruct (get (default_to (VObj []) options) "defaultBase16") as [d|];
    [|reflexivity].
  cbn [bind].
  destruct (get (default_to (VObj []) options) "base16Themes") as [b|];
    [|reflexivity].
  cbn [bind].
  change (getBase16Theme E (default_to (VObj []) VNull) (default_to VNull b))
    with (Ret (VUndef : value U)).
  cbn [bind].
  change (effective_input (default_to (VObj []) VNull) (VUndef : value U))
    with (VNull : value U).
  destruct (effective_theme E VNull _); reflexivity.
Qed.

Lemma effective_theme_empty_input (defaultBase16 : value U) :
  (forall key, In key (BASE16_KEYS E) -> inherited_key key = false) ->
  (forall key, In key (BASE16_KEYS E) -> exists y, get defaultBase16 key = Ret y) ->
  exists t,
    effective_theme E (VObj []) defaultBase16 = Ret (VObj t) /\
    (forall k, In k (map fst t) <-> In k (BASE16_KEYS E)) /\
    (forall key, In key (BASE16_KEYS E) ->
       get (VObj t) key = get defaultBase16 key).
Proof.
  intros Hi Hd.
  assert (Hr : exists r, effective_theme E (VObj []) defaultBase16 = Ret r).
  { unfold effective_theme.
    destruct (foldM_set_returns (fun key => get defaultBase16 key)
                (BASE16_KEYS E) Hd []) as [t Ht].
    exists (VObj t).
    rewrite (foldM_ext _ (fun t key =>
               v <- get defaultBase16 key ;; Ret (obj_set t key v))).
    - rewrite Ht. reflexivity.
    - intros b a Ha. rewrite get_object, (member_own _ _ (Hi a Ha)).
      reflexivity. }
  destruct Hr as [r Hr].
  destruct (effective_theme_inv E _ _ _ Hr) as (t & -> & Hk & Hv).
  exists t. split; [exact Hr|]. split; [exact Hk|].
  intros key Hin. destruct (Hv key Hin) as (x & y & Hx & Hy & Hl).
  rewrite get_object, (member_own _ _ (Hi key Hin)) in Hx.
  cbn in Hx. inversion Hx. subst x. cbn [truthy] in Hy.
  rewrite Hy. cbn [get own_entries]; unfold member. rewrite Hl. reflexivity.
Qed.

(** X15.  With no options and no theme-or-styling argument ([undefined],
    or the empty object) the theme handed to [getStylingFromBase16] has
    the keys and the values of the built-in default theme, and the custom
    styling map is empty, provided no key of the built-in default theme
    names a member of [Object.prototype]: at such a key the empty
    argument would read the member it inherits, which is truthy. *)
Theorem createStyling_defaults (themeOrStyling : value U) :
  (forall key, In key (BASE16_KEYS E) -> inherited_key key = false) ->
  themeOrStyling = VUndef \/ themeOrStyling = VObj [] ->
  exists theme,
    theme_and_custom E VUndef themeOrStyling = Ret (VObj theme, VObj []) /\
    (forall k, In k (own_keys (VObj theme)) <-> In k (BASE16_KEYS E)) /\
    (forall key, In key (BASE16_KEYS E) ->
       get (VObj theme) key = get (DEFAULT_BASE16 E) key).
Proof.
  intros Hinh Hin.
  destruct (effective_theme_empty_input (DEFAULT_BASE16 E) Hinh)
    as (t & Ht & Hk & Hv).
  { intros key Hkey. apply get_returns; intros Hd; unfold BASE16_KEYS in Hkey;
      rewrite Hd in Hkey; exact Hkey. }
  exists t. split; [|split; assumption].
  assert (Hi : default_to (VObj []) themeOrStyling = VObj [])
    by (destruct Hin as [-> | ->]; reflexivity).
  unfold theme_and_custom. rewrite Hi. cbn [default_to is_undefined get bind].
  cbn. change (effective_theme E (VObj []) (DEFAULT_BASE16 E))
         with (effective_theme E (VObj []) (DEFAULT_BASE16 E)).
  unfold effective_input. cbn.
  fold (DEFAULT_BASE16 E). rewrite Ht. reflexivity.
Qed.

End EntryPointEdges.

Section CustomStyling.

Context {U : Type} (E : Env U).






End CustomStyling.

(** ** Theme references, further *)

Section ThemeReferences.

Context {U : Type} (E : Env U).




(** X20.  A theme given inline, an object with [base00], without an own
    property [hasOwnProperty] and without a truthy [extend], resolves to
    itself, whatever the registries hold. *)
Theorem getBase16Theme_inline (theme : props U) (base16Themes : value U) :
  In "base00" (own_keys (VObj theme)) ->
  lookup "hasOwnProperty" theme = None ->
  truthy (or_undefined (lookup "extend" theme)) = false ->
  getBase16Theme E (VObj theme) base16Themes = Ret (VObj theme).
Proof.
  intros Hb Hh He. unfold getBase16Theme. cbn [truthy bind].
  rewrite get_object, (member_own theme "extend" eq_refl). cbn [bind].
  rewrite He. cbn [bind truthy has_base00]. rewrite Hh.
  unfold has_key. apply in_lookup_some in Hb. destruct Hb as [c Hc].
  cbn [own_entries] in Hc. rewrite Hc. reflexivity.
Qed.

(** X21.  A reference with a truthy [extend] resolves as the reference it
    extends, provided that one has no truthy [extend] of its own: the
    other fields of the wrapper play no part in the resolution. *)
Theorem getBase16Theme_extend
  (wrapper : props U) (extended base16Themes x : value U) :
  lookup "extend" wrapper = Some extended ->
  truthy extended = true ->
  get extended "extend" = Ret x ->
  truthy x = false ->
  getBase16Theme E (VObj wrapper) base16Themes =
  getBase16Theme E extended base16Themes.
Proof.
  intros Hl Ht Hx Hf. unfold getBase16Theme.
  cbn [truthy get own_entries bind]; unfold member. rewrite Hl. cbn [bind].
  rewrite !Ht, Hx. cbn [bind]. rewrite Hf. reflexivity.
Qed.

(** X22.  A name without modifier is read in the caller's registry
    first: a truthy value there is the candidate, whatever the built-in
    registry has under the name; the built-in entry is the candidate
    otherwise.  A truthy candidate is returned when its
    [hasOwnProperty('base00')] returns a truthy value, and [undefined] is
    returned in its place otherwise; for an object without an own
    property [hasOwnProperty] that is: when it has [base00] among its own
    keys. *)
Theorem getBase16Theme_registries (name : string) (base16Themes a : value U) :
  (forall i, String.get i name <> Some ":"%char) ->
  get (if truthy base16Themes then base16Themes else VObj []) name = Ret a ->
  getBase16Theme E (VStr name) base16Themes =
  (let candidate :=
     if truthy a then a else or_undefined (lookup name (base16 E)) in
   if truthy candidate
   then own <- has_base00 E candidate ;;
        Ret (if truthy own then candidate else VUndef)
   else Ret VUndef) /\
  (forall ps,
     (if truthy a then a else or_undefined (lookup name (base16 E)))
       = VObj ps ->
     lookup "hasOwnProperty" ps = None ->
     getBase16Theme E (VStr name) base16Themes =
     Ret (if has_key "base00" ps then VObj ps else VUndef)).
Proof.
  intros Hc Ha.
  assert (H : getBase16Theme E (VStr name) base16Themes =
    (let candidate :=
       if truthy a then a else or_undefined (lookup name (base16 E)) in
     if truthy candidate
     then own <- has_base00 E candidate ;;
          Ret (if truthy own then candidate else VUndef)
     else Ret VUndef)).
  { rewrite getBase16Theme_string, (split_on_absent _ _ Hc).
    cbn [hd nth_error]. rewrite Ha. reflexivity. }
  split; [exact H|].
  intros ps Hps Hh. rewrite H. cbv zeta. rewrite Hps.
  cbn [truthy has_base00]. rewrite Hh. cbn [bind truthy]. reflexivity.
Qed.

Lemma inverted_no_colon (i : nat) : String.get i "inverted" <> Some ":"%char.
Proof. do 8 (destruct i as [|i]; [discriminate|]). discriminate. Qed.

(** X23.  Only the modifier [inverted] counts: a name followed by any
    other modifier resolves as the name alone, and what follows a second
    colon is ignored. *)
Theorem getBase16Theme_modifiers (name modifier rest : string)
  (base16Themes : value U) :
  (forall i, String.get i name <> Some ":"%char) ->
  (forall i, String.get i modifier <> Some ":"%char) ->
  modifier <> "inverted" ->
  getBase16Theme E (VStr (name ++ ":" ++ modifier)) base16Themes =
  getBase16Theme E (VStr name) base16Themes /\
  getBase16Theme E (VStr (name ++ ":" ++ modifier ++ ":" ++ rest)) base16Themes =
  getBase16Theme E (VStr name) base16Themes /\
  getBase16Theme E (VStr (name ++ ":inverted:" ++ rest)) base16Themes =
  getBase16Theme E (VStr (name ++ ":inverted")) base16Themes.
Proof.
  intros Hn Hm Hi. apply String.eqb_neq in Hi.
  rewrite !getBase16Theme_string.
  change (name ++ ":" ++ modifier)%string
    with (name ++ String ":" modifier)%string.
  change (name ++ ":" ++ modifier ++ ":" ++ rest)%string
    with (name ++ String ":" (modifier ++ String ":" rest))%string.
  change (name ++ ":inverted:" ++ rest)%string
    with (name ++ String ":" ("inverted" ++ String ":" rest))%string.
  change (name ++ ":inverted")%string
    with (name ++ String ":" "inverted")%string.
  rewrite !(split_on_first _ name _ Hn), (split_on_first _ modifier _ Hm),
    (split_on_first _ "inverted" _ inverted_no_colon),
    (split_on_absent _ name Hn), (split_on_absent _ modifier Hm),
    (split_on_absent _ "inverted" inverted_no_colon).
  cbn [hd nth_error]. rewrite Hi. repeat split; reflexivity.
Qed.


End ThemeReferences.

(** ** Colour inversion, further *)

Section InversionEdges.

Context {U : Type} (E : Env U).

Lemma foldM_set_throws (F : string -> result (value U)) (ks : list string) :
  forall (t0 : props U) (k : string),
    In k ks -> F k = Throw ->
    foldM (fun t key => v <- F key ;; Ret (obj_set t key v)) ks t0 = Throw.
Proof.
  induction ks as [|a r IH]; intros t0 k Hin Hk; [contradiction|].
  cbn [foldM]. destruct (F a) as [v|] eqn:Ha; cbn [bind]; [|reflexivity].
  destruct Hin as [->|Hin]; [congruence|]. eapply IH; eassumption.
Qed.

(** X25.  [invertTheme] throws as soon as the colour inverter rejects the
    value of one key that starts with [base]: a malformed colour is not
    skipped or passed through. *)
Theorem invertTheme_rejected_colour (theme : props U) (key : string) (x : value U) :
  lookup key theme = Some x ->
  starts_with_base key = true ->
  invertColor E x = Throw ->
  invertTheme E (VObj theme) = Throw.
Proof.
  intros Hl Hb Hx. rewrite invertTheme_unfold.
  rewrite (foldM_set_throws
             (fun k => invert_value E k (member theme k))
             (map fst theme) [] key).
  - reflexivity.
  - eapply lookup_some_in, Hl.
  - rewrite (member_some _ _ _ Hl). unfold invert_value. rewrite Hb. exact Hx.
Qed.


End InversionEdges.

(** * Examples of the further properties *)

Local Open Scope string_scope.

(** X3 at [{color: 'red'}] over [{color: 'blue', size: '1'}]. *)
Lemma mergeStyling_objects_red_blue :
  exists merged,
    mergeStyling sample_env (VObj [("color", VStr "red")])
      (VObj [("color", VStr "blue"); ("size", VStr "1")]) = VObj merged /\
    lookup "color" merged = Some (VStr "red") /\
    lookup "size" merged = Some (VStr "1").
Proof.
  destruct (mergeStyling_objects_custom_wins sample_env
              [("color", VStr "red")]
              [("color", VStr "blue"); ("size", VStr "1")])
    as (m & Hm & _ & Hv).
  - repeat constructor; simpl; intuition discriminate.
  - repeat constructor; simpl; intuition discriminate.
  - exists m. split; [exact Hm|]. split; rewrite Hv; reflexivity.
Defined.

(** X4 at the class name ['a'] and the style [{color: 'red'}]. *)
Lemma mergeStyling_class_name_and_style :
  mergeStyling sample_env (VStr "a") (VObj [("color", VStr "red")]) =
  mergeStyling sample_env (VObj [("color", VStr "red")]) (VStr "a") /\
  call_value sample_env
    (mergeStyling sample_env (VStr "a") (VObj [("color", VStr "red")]))
    [VObj [("className", VStr "b")]] =
  Ret (VObj [("className", VStr "b a");
             ("style", VObj [("color", VStr "red")])]).
Proof.
  destruct (mergeStyling_class_name_and_object sample_env "a"
              (VObj [("color", VStr "red")]) [("className", VStr "b")] []
              eq_refl) as [H1 H2].
  split; [exact H1|]. rewrite H2. reflexivity.
Defined.

(** X6 at a class name over a function that returns [undefined]. *)
Lemma mergeStyling_over_undefined_result :
  call_value edge_env
    (mergeStyling edge_env (VStr "a") (VFun (FUser ReturnsUndefined)))
    [VObj []] = Throw.
Proof.
  apply (mergeStyling_default_function_returns_nothing edge_env
           (VStr "a") (FUser ReturnsUndefined) [VObj []] VUndef).
  - left. reflexivity.
  - reflexivity.
  - left. reflexivity.
Defined.

(** X7 at a function over a class name, called without props. *)
Lemma mergeStyling_literal_default_no_props :
  call_value sample_env
    (mergeStyling sample_env (VFun (FUser ThemeItself)) (VStr "a")) [VUndef]
  = Throw /\
  call_value sample_env
    (mergeStyling sample_env (VFun (FUser ThemeItself)) (VStr "a")) []
  = Throw.
Proof.
  apply (mergeStyling_literal_default_needs_props sample_env
           (FUser ThemeItself) (VStr "a") VUndef []).
  - left. reflexivity.
  - left. reflexivity.
Defined.

(** X8 at the keys ['a', 'missing', 'b', 'c'] of a map with two class
    names and two style objects. *)
Lemma getStylingByKeys_literals_mixed :
  getStylingByKeys sample_env
    (VObj [("a", VStr "x"); ("b", VObj [("color", VStr "red")]);
           ("c", VStr "y"); ("d", VObj [("color", VStr "blue")])])
    (VArr [VStr "a"; VStr "missing"; VStr "b"; VStr "c"; VStr "d"]) []
  = Ret (VObj [("className", VStr "x y");
               ("style", VObj [("color", VStr "blue")])]).
Proof.
  destruct (getStylingByKeys_literals sample_env
              [("a", VStr "x"); ("b", VObj [("color", VStr "red")]);
               ("c", VStr "y"); ("d", VObj [("color", VStr "blue")])]
              [VStr "a"; VStr "missing"; VStr "b"; VStr "c"; VStr "d"] [])
    as (style & Hr & _).
  - intros key Hin. simpl in Hin.
    destruct Hin as [<-|[<-|[<-|[<-|[<-|[]]]]]]; cbn; intros _;
      (split; [discriminate | repeat constructor; simpl; tauto]).
  - rewrite Hr. vm_compute. vm_compute in Hr. inversion Hr. reflexivity.
Defined.

(** X9 at a key whose styling is a class name. *)
Lemma getStylingByKeys_no_empty_field_class :
  exists p,
    getStylingByKeys sample_env (VObj [("a", VStr "x")]) (VStr "a") []
      = Ret (VObj p) /\
    (forall c, lookup "className" p = Some c -> truthy c = true) /\
    (forall s, lookup "style" p = Some s -> own_keys s <> []).
Proof.
  destruct (getStylingByKeys_no_empty_field sample_env
              (VObj [("a", VStr "x")]) (VStr "a")
              (VObj [("className", VStr "x")]) [] eq_refl eq_refl)
    as (p & Hp & Hc & Hs).
  exists p. split; [rewrite <- Hp; reflexivity|]. split; assumption.
Defined.

(** X10 at a function that returns [{}]. *)
Lemma getStylingByKeys_function_empty_object :
  getStylingByKeys sample_env (VObj [("a", VFun (FUser NoStyles))])
    (VStr "a") [] = Ret (VObj []).
Proof.
  apply (getStylingByKeys_function_without_properties sample_env
           [("a", VFun (FUser NoStyles))] (VStr "a") (FUser NoStyles) []
           (VObj [])); reflexivity.
Defined.

(** X11 at a function that returns [{style: null}]. *)
Lemma getStylingByKeys_function_null_style :
  getStylingByKeys edge_env (VObj [("a", VFun (FUser ReturnsNullStyle))])
    (VStr "a") [] = Throw.
Proof.
  apply (getStylingByKeys_function_without_style edge_env
           [("a", VFun (FUser ReturnsNullStyle))] (VStr "a")
           (FUser ReturnsNullStyle) [] (VObj [("style", VNull)]) VNull).
  - reflexivity.
  - reflexivity.
  - reflexivity.
  - reflexivity.
  - repeat constructor; simpl; tauto.
  - reflexivity.
  - right. reflexivity.
Defined.

(** X13 with a class name in the place of the function, and with a
    function that returns [undefined]. *)
Lemma createStyling_without_styling_map :
  createStyling edge_env (VStr "x") VUndef VUndef [] = Throw /\
  createStyling edge_env (VFun (FUser ReturnsUndefined)) VUndef VUndef []
    = Throw.
Proof.
  split.
  - apply (proj1 (createStyling_needs_styling_map edge_env (VStr "x")
                    VUndef VUndef (VObj []) (VObj []) [] eq_refl)).
    discriminate.
  - apply (proj2 (createStyling_needs_styling_map edge_env
                    (VFun (FUser ReturnsUndefined))
                    VUndef VUndef (VObj []) (VObj []) [] eq_refl) VUndef).
    + reflexivity.
    + left. reflexivity.
Defined.

(** X15 on the sample registry: the theme is the default theme. *)
Lemma createStyling_defaults_sample :
  theme_and_custom sample_env VUndef VUndef
    = Ret (VObj sample_default, VObj []).
Proof.
  assert (Hi : forall key, In key (BASE16_KEYS sample_env) ->
                 inherited_key key = false).
  { intros key Hk. vm_compute in Hk.
    repeat (destruct Hk as [<-|Hk]; [reflexivity|]). contradiction. }
  destruct (createStyling_defaults sample_env VUndef Hi (or_introl eq_refl))
    as (theme & Ht & _ & _).
  rewrite Ht. vm_compute in Ht. inversion Ht. reflexivity.
Defined.

(** Where the built-in default theme has the key [toString], the theme
    built for no argument holds the function the empty argument inherits
    there, not the default theme's value. *)
Lemma createStyling_defaults_inherited_key :
  theme_and_custom inherited_key_env VUndef VUndef
    = Ret (VObj [("toString", VFun (FProto "toString"))], VObj []) /\
  get (DEFAULT_BASE16 inherited_key_env) "toString" = Ret (VStr "#000000").
Proof. split; reflexivity. Qed.




(** X20 at the scenario theme. *)
Lemma getBase16Theme_inline_scenario :
  getBase16Theme sample_env (VObj scenario_theme) VNull
    = Ret (VObj scenario_theme).
Proof.
  apply (getBase16Theme_inline sample_env scenario_theme VNull).
  - vm_compute. tauto.
  - reflexivity.
  - reflexivity.
Defined.

(** X21 at a wrapper around a name, and at a wrapper around a wrapper:
    the inner [extend] is not followed. *)
Lemma getBase16Theme_extend_once :
  getBase16Theme sample_env
    (VObj [("extend", VStr "default"); ("x", VStr "cls")]) VNull
    = Ret (VObj sample_default) /\
  getBase16Theme sample_env
    (VObj [("extend", VObj [("extend", VStr "default")])]) VNull
    = Ret VUndef.
Proof.
  split.
  - rewrite (getBase16Theme_extend sample_env
               [("extend", VStr "default"); ("x", VStr "cls")]
               (VStr "default") VNull VUndef eq_refl eq_refl eq_refl eq_refl).
    reflexivity.
  - reflexivity.
Defined.

(** X22 at a caller's registry that has its own ['default']. *)
Lemma getBase16Theme_registries_collision :
  getBase16Theme sample_env (VStr "default")
    (VObj [("default", VObj scenario_theme)])
    = Ret (VObj scenario_theme).
Proof.
  destruct (getBase16Theme_registries sample_env "default"
              (VObj [("default", VObj scenario_theme)]) (VObj scenario_theme))
    as [_ H].
  - intros i. do 7 (destruct i as [|i]; [discriminate|]). discriminate.
  - reflexivity.
  - rewrite (H scenario_theme eq_refl eq_refl). reflexivity.
Defined.

(** X23 at the modifier ['dark']. *)
Lemma getBase16Theme_modifier_dark :
  getBase16Theme sample_env (VStr "default:dark") VNull
    = Ret (VObj sample_default).
Proof.
  transitivity (getBase16Theme sample_env (VStr "default") VNull);
    [|reflexivity].
  apply (getBase16Theme_modifiers sample_env "default" "dark" "" VNull).
  - intros i. do 7 (destruct i as [|i]; [discriminate|]). discriminate.
  - intros i. do 4 (destruct i as [|i]; [discriminate|]). discriminate.
  - discriminate.
Defined.


(** X25 at a colour name the sample parser does not know. *)
Lemma invertTheme_rejected_red :
  invertTheme sample_env (VObj [("scheme", VStr "s"); ("base00", VStr "red")])
    = Throw.
Proof.
  apply (invertTheme_rejected_colour sample_env
           [("scheme", VStr "s"); ("base00", VStr "red")] "base00" (VStr "red"));
    reflexivity.
Defined.


